(** * bevy-reflect-check: a shallow embedding of src/main.rs

    The tool scans Rust sources for types that derive both [Reflect] and
    [Component] but lack [#[reflect(Component)]].  The syntax parser
    ([syn]), the metadata resolver ([cargo_metadata]) and the file-system
    walker ([walkdir]) are external collaborators; only the parts of their
    behaviour that the code relies on are modelled. *)

From stdpp Require Import base list gmap strings.
From Stdlib Require Import String Ascii.
#[local] Set Warnings "-register-all".

Open Scope list_scope.

(* ------------------------------------------------------------------ *)
(** ** Tokens, paths and attributes (the part of [syn] the code reads) *)

(** A [proc_macro2] token tree.  A punctuation character carries its
    spacing ([true] = joint), which decides whether two [:] form [::]. *)
Inductive token :=
| TIdent (s : string)
| TPunct (c : ascii) (joint : bool)
| TLit (s : string)
| TGroup (open close : string) (ts : list token).

(** [syn::Path]: optional leading [::] and its segments (no generic
    arguments occur in attribute paths). *)
Record Path := mkPath { leading_colon : bool; segments : list string }.

(** [Path::is_ident]: no leading colon and exactly one segment [ident]. *)
Definition is_ident (p : Path) (ident : string) : bool :=
  negb (leading_colon p) &&
  match segments p with
  | [s] => String.eqb s ident
  | _ => false
  end.

(** [syn::Meta]: [#[path]], [#[path(tokens)]] and [#[path = expr]]. *)
Inductive Meta :=
| MetaPath (p : Path)
| MetaList (p : Path) (tokens : list token)
| MetaNameValue (p : Path).

Record Attribute := mkAttribute { meta : Meta }.

(** [TokenStream::to_string]: token trees separated by a space, groups
    between their delimiters. *)
Fixpoint token_to_string (t : token) : string :=
  match t with
  | TIdent s => s
  | TPunct c _ => String c EmptyString
  | TLit s => s
  | TGroup o c ts =>
      let fix go (ts : list token) : string :=
        match ts with
        | [] => EmptyString
        | [t] => token_to_string t
        | t :: ts => String.append (token_to_string t) (String.append " " (go ts))
        end in
      String.append o (String.append (go ts) c)
  end.

Fixpoint tokens_to_string (ts : list token) : string :=
  match ts with
  | [] => EmptyString
  | [t] => token_to_string t
  | t :: ts => String.append (token_to_string t) (String.append " " (tokens_to_string ts))
  end.

(** [str::contains] for a string pattern. *)
Fixpoint contains (s pat : string) : bool :=
  String.prefix pat s ||
  match s with
  | EmptyString => false
  | String _ s' => contains s' pat
  end.

(** [MetaList::parse_nested_meta] with a callback that only inspects the
    path and returns [Ok(())] without consuming anything.  [syn] loops:
    parse a meta path (optional leading [::], an identifier, then
    any number of [:: ident]); call the callback; stop with [Ok] at end of input;
    otherwise require a [,] (an error stops the loop, and the caller
    discards it with [.ok()]); stop with [Ok] if the input is then empty.
    The result is the list of paths handed to the callback, in order.
    The parser state is: [PStart] at the beginning of a nested meta,
    [PNeedIdent p] after a [::], [PAfterIdent p] after an identifier. *)
Inductive pstate := PStart | PNeedIdent (p : Path) | PAfterIdent (p : Path).

Definition push_seg (p : Path) (s : string) : Path :=
  mkPath (leading_colon p) (segments p ++ [s]).

Fixpoint nested_paths (st : pstate) (ts : list token) : list Path :=
  match st, ts with
  | PStart, [] => []
  | PStart, TPunct ":"%char true :: TPunct ":"%char _ :: rest =>
      nested_paths (PNeedIdent (mkPath true [])) rest
  | PStart, TIdent s :: rest => nested_paths (PAfterIdent (mkPath false [s])) rest
  | PStart, _ :: _ => []                        (* expected ident: error *)
  | PNeedIdent p, TIdent s :: rest => nested_paths (PAfterIdent (push_seg p s)) rest
  | PNeedIdent _, _ => []                       (* expected ident: error *)
  | PAfterIdent p, TPunct ":"%char true :: TPunct ":"%char _ :: rest =>
      nested_paths (PNeedIdent p) rest
  | PAfterIdent p, [] => [p]                    (* callback, then Ok *)
  | PAfterIdent p, TPunct ","%char _ :: rest => p :: nested_paths PStart rest
  | PAfterIdent p, _ :: _ => [p]                (* callback, then expected [,] *)
  end.

Definition parse_nested_meta (ts : list token) : list Path := nested_paths PStart ts.

(* ------------------------------------------------------------------ *)
(** ** [has_cfg_test] and the detection predicate *)

(** [has_cfg_test]: some attribute is a list [cfg(..)] whose token text
    contains ["test"]. *)
Definition has_cfg_test (attrs : list Attribute) : bool :=
  existsb (fun attr =>
    match meta attr with
    | MetaList p toks => is_ident p "cfg" && contains (tokens_to_string toks) "test"
    | _ => false
    end) attrs.

(** The three mutable flags of the loop. *)
Record flags := mkFlags {
  derives_reflect : bool;
  derives_component : bool;
  has_reflect_component_attr : bool }.

(** Callbacks of the two [parse_nested_meta] calls. *)
Definition derive_cb (fl : flags) (p : Path) : flags :=
  if is_ident p "Reflect" then mkFlags true (derives_component fl) (has_reflect_component_attr fl)
  else if is_ident p "Component" then mkFlags (derives_reflect fl) true (has_reflect_component_attr fl)
  else fl.

Definition reflect_cb (fl : flags) (p : Path) : flags :=
  if is_ident p "Component" then mkFlags (derives_reflect fl) (derives_component fl) true
  else fl.

(** One iteration of [for attr in attrs]: the two guarded match arms. *)
Definition scan_attr (fl : flags) (attr : Attribute) : flags :=
  match meta attr with
  | MetaList p toks =>
      if is_ident p "derive" then fold_left derive_cb (parse_nested_meta toks) fl
      else if is_ident p "reflect" then fold_left reflect_cb (parse_nested_meta toks) fl
      else fl
  | _ => fl
  end.

Definition derives_reflect_and_component_but_no_reflect_component
    (attrs : list Attribute) : bool :=
  let fl := fold_left scan_attr attrs (mkFlags false false false) in
  derives_reflect fl && derives_component fl && negb (has_reflect_component_attr fl).

(* ------------------------------------------------------------------ *)
(** ** Items, visibility and [collect_reflect_types] *)

(** [syn::Visibility]: [pub], [pub(crate)] / [pub(self)] / [pub(super)] /
    [pub(in path)] (the flag records the [in] token), or nothing. *)
Inductive Visibility :=
| VisPublic
| VisRestricted (in_token : bool) (path : Path)
| VisInherited.

(** [syn::Item], restricted to the variants the walker distinguishes;
    [ItemOther] stands for every other kind of item.  A module's [content]
    is [Some items] for [mod m { items }] and [None] for [mod m;]. *)
Inductive Item :=
| ItemStruct (attrs : list Attribute) (vis : Visibility) (ident : string)
| ItemEnum (attrs : list Attribute) (vis : Visibility) (ident : string)
| ItemMod (attrs : list Attribute) (vis : Visibility) (ident : string)
          (content : option (list Item))
| ItemOther.

(** [syn::File]; the walker only reads [items]. *)
Record File := mkFile { items : list Item }.

Definition vis_is_public (v : Visibility) : bool :=
  match v with VisPublic => true | _ => false end.

Definition is_public (item : Item) : bool :=
  match item with
  | ItemStruct _ v _ => vis_is_public v
  | ItemEnum _ v _ => vis_is_public v
  | ItemMod _ v _ _ => vis_is_public v
  | ItemOther => false
  end.

(** [format!("{}::{}", a, b)]. *)
Definition join2 (a b : string) : string := String.append a (String.append "::" b).

(** [collect_reflect_types]: the [Vec] accumulator is threaded explicitly
    ([reflect_types] in, extended vector out).  The outer fixpoint recurses
    into module bodies, the inner one is the [for item in &file.items]
    loop; [continue] returns the accumulator unchanged. *)
Fixpoint collect_item (item : Item) (module_path : string)
    (reflect_types : list string) (public_only parent_is_public : bool)
    : list string :=
  let item_is_public := is_public item && parent_is_public in
  match item with
  | ItemStruct attrs _ ident =>
      if derives_reflect_and_component_but_no_reflect_component attrs then
        if public_only && negb item_is_public then reflect_types
        else reflect_types ++ [join2 module_path ident]
      else reflect_types
  | ItemEnum attrs _ ident =>
      if derives_reflect_and_component_but_no_reflect_component attrs then
        if public_only && negb item_is_public then reflect_types
        else reflect_types ++ [join2 module_path ident]
      else reflect_types
  | ItemMod attrs _ ident content =>
      if negb (has_cfg_test attrs) then
        if public_only && negb item_is_public then reflect_types
        else
          match content with
          | Some its =>
              let nested_path := join2 module_path ident in
              let fix go (its : list Item) (acc : list string) : list string :=
                match its with
                | [] => acc
                | it :: its => go its (collect_item it nested_path acc public_only item_is_public)
                end in
              go its reflect_types
          | None => reflect_types
          end
      else reflect_types
  | ItemOther => reflect_types
  end.

Definition collect_items (its : list Item) (module_path : string)
    (reflect_types : list string) (public_only parent_is_public : bool) : list string :=
  fold_left (fun acc it => collect_item it module_path acc public_only parent_is_public)
    its reflect_types.

Definition collect_reflect_types (file : File) (module_path : string)
    (reflect_types : list string) (public_only parent_is_public : bool) : list string :=
  collect_items (items file) module_path reflect_types public_only parent_is_public.

(* ------------------------------------------------------------------ *)
(** ** File-system paths ([std::path::Path] on Unix) *)

Inductive component := RootDir | CurDir | ParentDir | Normal (s : string).

#[global] Instance component_eq_dec : EqDecision component.
Proof. solve_decision. Defined.

(** Split a string at every ['/']. *)
Fixpoint split_slash (s : string) : list string :=
  match s with
  | EmptyString => [EmptyString]
  | String c s' =>
      if Ascii.eqb c "/"%char then EmptyString :: split_slash s'
      else match split_slash s' with
           | [] => [String c EmptyString]
           | w :: ws => String c w :: ws
           end
  end.

Definition normal_parts (ps : list string) : list component :=
  omap (fun w =>
    if String.eqb w "" then None
    else if String.eqb w "." then None
    else if String.eqb w ".." then Some ParentDir
    else Some (Normal w)) ps.

(** [Path::components]: a leading ['/'] is [RootDir], a leading ["."] is
    [CurDir]; empty parts and ["."] elsewhere are normalised away. *)
Definition components (s : string) : list component :=
  match split_slash s with
  | w :: ws =>
      if String.eqb w "" then RootDir :: normal_parts ws
      else if String.eqb w "." then CurDir :: normal_parts ws
      else normal_parts (w :: ws)
  | [] => []
  end.

(** [Path::starts_with]: component-wise prefix. *)
Fixpoint starts_with (p base : list component) : bool :=
  match p, base with
  | _, [] => true
  | x :: p', y :: base' => bool_decide (x = y) && starts_with p' base'
  | [], _ :: _ => false
  end.

(** [Path::strip_prefix]: the components left after [base]. *)
Fixpoint strip_prefix (p base : list component) : option (list component) :=
  match p, base with
  | _, [] => Some p
  | x :: p', y :: base' => if bool_decide (x = y) then strip_prefix p' base' else None
  | [], _ :: _ => None
  end.

(** [Path::parent]: drop the last component if it is not the root. *)
Definition parent (p : list component) : option (list component) :=
  match last p with
  | Some (Normal _) | Some CurDir | Some ParentDir => Some (removelast p)
  | _ => None
  end.

(** The [OsStr] of a component, as yielded by [Path::iter]. *)
Definition component_str (c : component) : string :=
  match c with
  | RootDir => "/" | CurDir => "." | ParentDir => ".." | Normal s => s
  end.

(** The string of a path made of the given components. *)
Definition render_path (cs : list component) : string :=
  match cs with
  | RootDir :: rest => String.append "/" (String.concat "/" (map component_str rest))
  | _ => String.concat "/" (map component_str cs)
  end.

(* ------------------------------------------------------------------ *)
(** ** Module paths: [relative_path_to_module_path], [resolve_module_path] *)

(** [s.trim_end_matches(".rs")]: strip the suffix as long as it is there
    (each round shortens [s] by three, so [String.length s] rounds are
    enough). *)
Definition ends_with_rs (s : string) : bool :=
  let n := String.length s in
  (3 <=? n)%nat && String.eqb (String.substring (n - 3) 3 s) ".rs".

Fixpoint trim_end_rs (fuel : nat) (s : string) : string :=
  match fuel with
  | O => s
  | S fuel' =>
      if ends_with_rs s
      then trim_end_rs fuel' (String.substring 0 (String.length s - 3) s)
      else s
  end.

Definition trim_end_matches_rs (s : string) : string := trim_end_rs (String.length s) s.

Definition relative_path_to_module_path (path : list component) : string :=
  String.concat "::"
    (List.filter (fun s => negb (String.eqb s "mod"))
       (map (fun c => trim_end_matches_rs (component_str c)) path)).

(** [cargo_metadata::Package] and [Metadata], as far as they are read. *)
Record Package := mkPackage { name : string; manifest_path : string }.
Record Metadata := mkMetadata { packages : list Package }.

(** [crate_root_for_file]: the first package whose manifest directory is
    a prefix of the path; the [?] on [parent()] aborts the whole search. *)
Fixpoint crate_root_for_file_in (path : list component) (pkgs : list Package)
    : option string :=
  match pkgs with
  | [] => None
  | pkg :: pkgs' =>
      match parent (components (manifest_path pkg)) with
      | None => None
      | Some crate_root =>
          if starts_with path crate_root then Some (name pkg)
          else crate_root_for_file_in path pkgs'
      end
  end.

Definition crate_root_for_file (path : list component) (metadata : Metadata) : option string :=
  crate_root_for_file_in path (packages metadata).

(** [crate_root_path]: the manifest directory of the first package with
    that name. *)
Definition crate_root_path (crate_name : string) (metadata : Metadata)
    : option (list component) :=
  match List.find (fun pkg => String.eqb (name pkg) crate_name) (packages metadata) with
  | Some pkg => parent (components (manifest_path pkg))
  | None => None
  end.

Definition resolve_module_path (path : string) (metadata : Metadata) : option string :=
  let path := components path in
  match crate_root_for_file path metadata with
  | Some crate_name =>
      match crate_root_path crate_name metadata with
      | None => None
      | Some root =>
          match strip_prefix path root with
          | None => None
          | Some relative_path =>
              Some (join2 crate_name (relative_path_to_module_path relative_path))
          end
      end
  | None =>
      match strip_prefix path (components "src") with
      | None => None
      | Some relative_path => Some (relative_path_to_module_path relative_path)
      end
  end.

(* ------------------------------------------------------------------ *)
(** ** Source discovery: [collect_source_files] over a [WalkDir] tree *)

(** A directory entry as [walkdir] reports it: a non-directory, a
    directory with its named children (in [read_dir] order), or an entry
    whose reading failed (dropped by [filter_map(|e| e.ok())]). *)
Inductive node :=
| NFile
| NDir (children : list (string * node))
| NErr.

(** [Path::file_name]: the last component if it is a normal one. *)
Definition file_name (p : string) : option string :=
  match last (components p) with
  | Some (Normal s) => Some s
  | _ => None
  end.

(** Split at the last ['.']: [(before, after)]. *)
Fixpoint split_last_dot (s : string) : option (string * string) :=
  match s with
  | EmptyString => None
  | String c s' =>
      match split_last_dot s' with
      | Some (b, a) => Some (String c b, a)
      | None => if Ascii.eqb c "."%char then Some (EmptyString, s') else None
      end
  end.

(** [Path::extension]: the text after the last dot of the file name,
    unless the only dot starts the name (or the name is [..]). *)
Definition extension (p : string) : option string :=
  match file_name p with
  | None => None
  | Some nm =>
      if String.eqb nm ".." then None
      else match split_last_dot nm with
           | Some (b, a) => if String.eqb b "" then None else Some a
           | None => None
           end
  end.

Definition should_include_dir (path : string) : bool :=
  let nm := match file_name path with Some s => s | None => "" end in
  negb (String.eqb nm "examples" || String.eqb nm "tests").

(** [Path::join] (for a relative child name). *)
Definition path_join (dir child : string) : string :=
  match String.get (String.length dir - 1) dir with
  | Some "/"%char => String.append dir child
  | _ => if String.eqb dir "" then child else String.append dir (String.append "/" child)
  end.

(** [WalkDir::new(dir).into_iter().filter_entry(should_include_dir)]
    followed by [filter_map(|e| e.ok())]: pre-order, the entry before its
    children; a rejected directory is not descended into. *)
Fixpoint walk (path : string) (n : node) : list string :=
  match n with
  | NErr => []
  | NFile => if should_include_dir path then [path] else []
  | NDir children =>
      if should_include_dir path then
        path :: List.concat (map (fun '(nm, c) => walk (path_join path nm) c) children)
      else []
  end.

Definition collect_source_files (dir : string) (tree : node) : list string :=
  List.filter (fun p => bool_decide (extension p = Some "rs")) (walk dir tree).

(** [collect_dependency_files]: [fs dir] is the tree found at [dir]. *)
Definition collect_dependency_files (metadata : Metadata) (fs : string -> node)
    : list string :=
  List.concat (map (fun pkg =>
    if String.prefix "bevy_" (name pkg) then
      match parent (components (manifest_path pkg)) with
      | Some source => let dir := render_path source in collect_source_files dir (fs dir)
      | None => []
      end
    else []) (packages metadata)).

(* ------------------------------------------------------------------ *)
(** ** [main] *)

(** [build_module_tree] over all source files: [load path] is
    [fs::read_to_string] followed by [parse_file]; a failure of either is
    [None] and the file is skipped. *)
Definition build_module_tree (load : string -> option File) (source_files : list string)
    : gmap string File :=
  fold_left (fun module_tree path =>
    match load path with
    | Some syntax => <[path := syntax]> module_tree
    | None => module_tree
    end) source_files ∅.

(** The second loop of [main], over the entries of the [HashMap] in the
    order given. *)
Definition findings (metadata : Metadata) (entries : list (string * File)) : list string :=
  fold_left (fun reflect_types '(path, syntax) =>
    match resolve_module_path path metadata with
    | Some module_path => collect_reflect_types syntax module_path reflect_types true true
    | None => reflect_types
    end) entries [].

(** [HashMap] iteration order is unspecified: [main] may print the
    findings of any enumeration of the map's entries. *)
Definition main_output_from (metadata : Metadata) (load : string -> option File)
    (source_files : list string) (out : list string) : Prop :=
  exists entries,
    entries ≡ₚ map_to_list (build_module_tree load source_files) /\
    out = findings metadata entries.

Definition discover (metadata : Metadata) (fs : string -> node) : list string :=
  collect_source_files "./src" (fs "./src") ++ collect_dependency_files metadata fs.

Definition main_output (metadata : Metadata) (fs : string -> node)
    (load : string -> option File) (out : list string) : Prop :=
  main_output_from metadata load (discover metadata fs) out.

(** Test data. *)
Definition tok_id (s : string) : token := TIdent s.
Definition tok_comma : token := TPunct ","%char false.
Definition attr_list (p : string) (toks : list token) : Attribute :=
  mkAttribute (MetaList (mkPath false [p]) toks).
Definition derive_rc : Attribute := attr_list "derive" [tok_id "Reflect"; tok_comma; tok_id "Component"].
Definition reflect_c : Attribute := attr_list "reflect" [tok_id "Component"].
Definition cfg_test : Attribute := attr_list "cfg" [tok_id "test"].

(* ------------------------------------------------------------------ *)
(** ** The three flags, stated per attribute *)

(** Whether some list attribute [#[attr_name(..)]] hands the bare
    identifier [ident] to its nested-meta callback. *)
Definition attr_carries (attr_name ident : string) (attrs : list Attribute) : bool :=
  existsb (fun attr =>
    match meta attr with
    | MetaList p toks =>
        is_ident p attr_name && existsb (fun q => is_ident q ident) (parse_nested_meta toks)
    | _ => false
    end) attrs.

Definition declares_reflect (attrs : list Attribute) : bool := attr_carries "derive" "Reflect" attrs.
Definition declares_component (attrs : list Attribute) : bool := attr_carries "derive" "Component" attrs.
Definition has_registration (attrs : list Attribute) : bool := attr_carries "reflect" "Component" attrs.

(** An annotation list realising a given combination of the three flags. *)
Definition attrs_for (a b r : bool) : list Attribute :=
  (if a then [attr_list "derive" [tok_id "Reflect"]] else []) ++
  (if b then [attr_list "derive" [tok_id "Component"]] else []) ++
  (if r then [reflect_c] else []).

(** Nested induction over items: a module body is a list of items. *)
Section ItemInd.
Variable P : Item -> Prop.
Hypothesis Hstruct : forall a v i, P (ItemStruct a v i).
Hypothesis Henum : forall a v i, P (ItemEnum a v i).
Hypothesis Hmod_none : forall a v i, P (ItemMod a v i None).
Hypothesis Hmod_some : forall a v i its, Forall P its -> P (ItemMod a v i (Some its)).
Hypothesis Hother : P ItemOther.

Fixpoint item_nested_ind (it : Item) : P it :=
  match it with
  | ItemStruct a v i => Hstruct a v i
  | ItemEnum a v i => Henum a v i
  | ItemMod a v i None => Hmod_none a v i
  | ItemMod a v i (Some its) =>
      Hmod_some a v i its
        ((fix go (l : list Item) : Forall P l :=
            match l with
            | [] => @List.Forall_nil Item P
            | x :: l' => @List.Forall_cons Item P x l' (item_nested_ind x) (go l')
            end) its)
  | ItemOther => Hother
  end.
End ItemInd.

(** A name is simple: no ['/'] in it, and not [""], ["."] or [".."]. *)
Definition simple_name (nm : string) : Prop :=
  split_slash nm = [nm] /\ nm <> "" /\ nm <> "." /\ nm <> "..".

Definition excluded_name (nm : string) : bool :=
  String.eqb nm "examples" || String.eqb nm "tests".

(** What one map entry adds to the findings. *)
Definition contrib (metadata : Metadata) (e : string * File) : list string :=
  match resolve_module_path e.1 metadata with
  | Some module_path => collect_reflect_types e.2 module_path [] true true
  | None => []
  end.



(** The project's own crate, as [cargo metadata] reports it, and a
    [src/lib.rs] holding [#[derive(Reflect, Component)] pub struct Foo;]. *)
Definition app_metadata : Metadata :=
  mkMetadata [mkPackage "app" "/home/u/app/Cargo.toml"].

Definition app_lib : File := mkFile [ItemStruct [derive_rc] VisPublic "Foo"].

Definition app_fs (dir : string) : node :=
  if String.eqb dir "./src" then NDir [("lib.rs", NFile)] else NErr.

Definition app_load (path : string) : option File :=
  if String.eqb path "./src/lib.rs" then Some app_lib else None.

(** [a, b, c] as tokens: identifiers separated by commas. *)
Fixpoint comma_idents (ids : list string) : list token :=
  match ids with
  | [] => []
  | [a] => [TIdent a]
  | a :: ids' => TIdent a :: tok_comma :: comma_idents ids'
  end.

Definition bare (s : string) : Path := mkPath false [s].

(** Whether the identifier [s] occurs in a token tree, at any depth. *)
Fixpoint tok_has_ident (s : string) (t : token) : bool :=
  match t with
  | TIdent s' => String.eqb s' s
  | TGroup _ _ ts => existsb (tok_has_ident s) ts
  | _ => false
  end.

Section TokenInd.
Variable P : token -> Prop.
Hypothesis Hident : forall s, P (TIdent s).
Hypothesis Hpunct : forall c j, P (TPunct c j).
Hypothesis Hlit : forall s, P (TLit s).
Hypothesis Hgroup : forall o c ts, Forall P ts -> P (TGroup o c ts).

Fixpoint token_nested_ind (t : token) : P t :=
  match t with
  | TIdent s => Hident s
  | TPunct c j => Hpunct c j
  | TLit s => Hlit s
  | TGroup o c ts =>
      Hgroup o c ts
        ((fix go (l : list token) : Forall P l :=
            match l with
            | [] => @List.Forall_nil token P
            | x :: l' => @List.Forall_cons token P x l' (token_nested_ind x) (go l')
            end) ts)
  end.
End TokenInd.

(** [pat] occurs in [s]. *)
Definition infix (pat s : string) : Prop :=
  exists x y, s = String.append x (String.append pat y).

(** [k] copies of [".rs"]. *)
Fixpoint rs_suffix (k : nat) : string :=
  match k with
  | O => EmptyString
  | S k' => String.append (rs_suffix k') ".rs"
  end.

Definition bevy_metadata : Metadata :=
  mkMetadata [mkPackage "app" "/home/u/app/Cargo.toml";
              mkPackage "bevy_x" "/reg/bevy_x/Cargo.toml"].

(** Two files of the dependency [bevy_x], each holding one qualifying type. *)
Definition dep_load (path : string) : option File :=
  if String.eqb path "/reg/bevy_x/src/lib.rs"
  then Some (mkFile [ItemStruct [derive_rc] VisPublic "Foo"])
  else if String.eqb path "/reg/bevy_x/src/a.rs"
  then Some (mkFile [ItemEnum [derive_rc] VisPublic "Bar"])
  else None.

(** Induction over directory trees, with a hypothesis for every child. *)
Section NodeInd.
Variable P : node -> Prop.
Hypothesis Hfile : P NFile.
Hypothesis Herr : P NErr.
Hypothesis Hdir : forall cs, Forall (fun e => P e.2) cs -> P (NDir cs).

Fixpoint node_nested_ind (n : node) : P n :=
  match n with
  | NFile => Hfile
  | NErr => Herr
  | NDir cs =>
      Hdir cs
        ((fix go (l : list (string * node)) : Forall (fun e => P e.2) l :=
            match l with
            | [] => @List.Forall_nil (string * node) (fun e => P e.2)
            | e :: l' =>
                @List.Forall_cons (string * node) (fun e => P e.2) e l'
                  (node_nested_ind e.2) (go l')
            end) cs)
  end.
End NodeInd.

(* ================================================================== *)
(** * Lemmas *)

Lemma is_ident_excl (p : Path) (a b : string) :
  a <> b -> is_ident p a = true -> is_ident p b = false.
Proof.
  unfold is_ident. destruct (leading_colon p); simpl; [done|].
  destruct (segments p) as [|s [|]]; try done.
  intros Hab Ha. apply String.eqb_eq in Ha. subst s.
  by apply String.eqb_neq.
Qed.

Lemma fold_derive_cb (ps : list Path) (fl : flags) :
  fold_left derive_cb ps fl =
  mkFlags (derives_reflect fl || existsb (fun q => is_ident q "Reflect") ps)
          (derives_component fl || existsb (fun q => is_ident q "Component") ps)
          (has_reflect_component_attr fl).
Proof.
  revert fl. induction ps as [|q ps IH]; intros [r c h]; simpl.
  - by rewrite !orb_false_r.
  - rewrite IH. unfold derive_cb. simpl.
    destruct (is_ident q "Reflect") eqn:Hr.
    + rewrite (is_ident_excl q "Reflect" "Component") by done. simpl.
      by rewrite orb_true_r.
    + destruct (is_ident q "Component"); simpl; by rewrite ?orb_true_r.
Qed.

Lemma fold_reflect_cb (ps : list Path) (fl : flags) :
  fold_left reflect_cb ps fl =
  mkFlags (derives_reflect fl) (derives_component fl)
          (has_reflect_component_attr fl || existsb (fun q => is_ident q "Component") ps).
Proof.
  revert fl. induction ps as [|q ps IH]; intros [r c h]; simpl.
  - by rewrite orb_false_r.
  - rewrite IH. unfold reflect_cb. simpl.
    destruct (is_ident q "Component"); simpl; by rewrite ?orb_true_r.
Qed.

Lemma fold_scan_attr (attrs : list Attribute) (fl : flags) :
  fold_left scan_attr attrs fl =
  mkFlags (derives_reflect fl || declares_reflect attrs)
          (derives_component fl || declares_component attrs)
          (has_reflect_component_attr fl || has_registration attrs).
Proof.
  unfold declares_reflect, declares_component, has_registration, attr_carries.
  revert fl. induction attrs as [|a attrs IH]; intros [r c h]; simpl.
  - by rewrite !orb_false_r.
  - rewrite IH. unfold scan_attr. destruct (meta a) as [p|p toks|p]; simpl; try done.
    destruct (is_ident p "derive") eqn:Hd.
    + rewrite (is_ident_excl p "derive" "reflect") by done.
      rewrite fold_derive_cb. simpl. f_equal; by rewrite ?orb_assoc.
    + simpl. destruct (is_ident p "reflect"); simpl.
      * rewrite fold_reflect_cb. simpl. f_equal; by rewrite ?orb_assoc.
      * done.
Qed.

Lemma attrs_for_flags (a b r : bool) :
  (declares_reflect (attrs_for a b r), declares_component (attrs_for a b r),
   has_registration (attrs_for a b r)) = (a, b, r).
Proof. destruct a, b, r; reflexivity. Qed.

(** C1.  The detection predicate is exactly
    [declares_A && declares_B && !has_registration] of the annotation list
    (its only argument); every one of the 8 flag combinations occurs, and
    the result is [true] on exactly the combination (true, true, false). *)
Theorem detection_predicate_truth_table :
  (forall attrs : list Attribute,
     derives_reflect_and_component_but_no_reflect_component attrs =
     declares_reflect attrs && declares_component attrs && negb (has_registration attrs)) /\
  (forall a b r : bool,
     (exists attrs : list Attribute,
        (declares_reflect attrs, declares_component attrs, has_registration attrs) = (a, b, r)) /\
     (a && b && negb r = true <-> (a, b, r) = (true, true, false))).
Proof.
  split.
  - intros attrs. unfold derives_reflect_and_component_but_no_reflect_component.
    by rewrite fold_scan_attr.
  - intros a b r. split.
    + exists (attrs_for a b r). apply attrs_for_flags.
    + destruct a, b, r; simpl; split; congruence.
Qed.

(** The module arm, with the inner loop written as [collect_items]. *)
Lemma collect_item_mod attrs v ident its module_path reflect_types public_only parent_is_public :
  collect_item (ItemMod attrs v ident (Some its)) module_path reflect_types
    public_only parent_is_public =
  if has_cfg_test attrs then reflect_types
  else if public_only && negb (vis_is_public v && parent_is_public) then reflect_types
  else collect_items its (join2 module_path ident) reflect_types public_only
         (vis_is_public v && parent_is_public).
Proof.
  simpl. destruct (has_cfg_test attrs); simpl; [done|].
  destruct (public_only && negb (vis_is_public v && parent_is_public)); [done|].
  unfold collect_items. generalize reflect_types.
  induction its as [|it its IH]; intros acc; simpl; [done|]. apply IH.
Qed.

Lemma collect_item_mod_none attrs v ident module_path reflect_types public_only parent_is_public :
  collect_item (ItemMod attrs v ident None) module_path reflect_types
    public_only parent_is_public = reflect_types.
Proof.
  simpl. destruct (has_cfg_test attrs); simpl; [done|].
  by destruct (public_only && negb (vis_is_public v && parent_is_public)).
Qed.

(** The accumulator is only ever extended at its end. *)
Lemma collect_item_acc (it : Item) :
  forall module_path reflect_types public_only parent_is_public,
    collect_item it module_path reflect_types public_only parent_is_public =
    reflect_types ++ collect_item it module_path [] public_only parent_is_public.
Proof.
  induction it as [a v i|a v i|a v i|a v i its Hits|] using item_nested_ind;
    intros mp acc po pp.
  - simpl. destruct (derives_reflect_and_component_but_no_reflect_component a); simpl;
      [destruct (po && negb (vis_is_public v && pp)); simpl|]; by rewrite ?app_nil_r.
  - simpl. destruct (derives_reflect_and_component_but_no_reflect_component a); simpl;
      [destruct (po && negb (vis_is_public v && pp)); simpl|]; by rewrite ?app_nil_r.
  - by rewrite !collect_item_mod_none, app_nil_r.
  - rewrite !collect_item_mod.
    destruct (has_cfg_test a); [by rewrite app_nil_r|].
    destruct (po && negb (vis_is_public v && pp)); [by rewrite app_nil_r|].
    unfold collect_items. generalize (join2 mp i) (vis_is_public v && pp). intros mp' pp'.
    revert acc. induction Hits as [|x xs Hx Hxs IH]; intros acc; simpl.
    + by rewrite app_nil_r.
    + rewrite IH, (IH (collect_item x mp' [] po pp')), Hx. by rewrite app_assoc.
  - simpl. by rewrite app_nil_r.
Qed.

Lemma collect_items_acc (its : list Item) module_path reflect_types public_only parent_is_public :
  collect_items its module_path reflect_types public_only parent_is_public =
  reflect_types ++ collect_items its module_path [] public_only parent_is_public.
Proof.
  unfold collect_items. revert reflect_types.
  induction its as [|x xs IH]; intros acc; simpl; [by rewrite app_nil_r|].
  rewrite IH, (IH (collect_item x module_path [] public_only parent_is_public)).
  by rewrite collect_item_acc, app_assoc.
Qed.

Lemma collect_items_app (l1 l2 : list Item) module_path reflect_types public_only parent_is_public :
  collect_items (l1 ++ l2) module_path reflect_types public_only parent_is_public =
  collect_items l2 module_path
    (collect_items l1 module_path reflect_types public_only parent_is_public)
    public_only parent_is_public.
Proof. unfold collect_items. apply fold_left_app. Qed.

(** C3.  A module carrying a [cfg(..test..)] attribute contributes nothing,
    whatever its visibility, its body, and the policy: the item itself
    leaves the accumulator unchanged, and removing it from any item list
    changes no result. *)
Theorem test_guarded_module_skipped (attrs : list Attribute) (v : Visibility)
    (ident : string) (content : option (list Item)) (pre post : list Item)
    (module_path : string) (reflect_types : list string)
    (public_only parent_is_public : bool) :
  has_cfg_test attrs = true ->
  collect_item (ItemMod attrs v ident content) module_path reflect_types
    public_only parent_is_public = reflect_types /\
  collect_items (pre ++ ItemMod attrs v ident content :: post) module_path reflect_types
    public_only parent_is_public =
  collect_items (pre ++ post) module_path reflect_types public_only parent_is_public.
Proof.
  intros Hcfg.
  assert (Hit : forall acc,
    collect_item (ItemMod attrs v ident content) module_path acc
      public_only parent_is_public = acc).
  { intros acc. destruct content as [its|].
    - by rewrite collect_item_mod, Hcfg.
    - apply collect_item_mod_none. }
  split; [apply Hit|].
  rewrite !collect_items_app. unfold collect_items at 1 3. cbn [fold_left]. by rewrite Hit.
Qed.

Lemma test_guarded_module_skipped_witness :
  has_cfg_test [cfg_test] = true /\
  collect_item (ItemMod [cfg_test] VisPublic "tests"
                  (Some [ItemStruct [derive_rc] VisPublic "Foo"])) "c" [] true true = [] /\
  collect_items ([] ++ ItemMod [cfg_test] VisPublic "tests"
                  (Some [ItemStruct [derive_rc] VisPublic "Foo"]) :: []) "c" [] true true =
  collect_items ([] ++ []) "c" [] true true.
Proof.
  split; [reflexivity|].
  apply (test_guarded_module_skipped [cfg_test] VisPublic "tests"
           (Some [ItemStruct [derive_rc] VisPublic "Foo"]) [] [] "c" [] true true).
  reflexivity.
Defined.

(** Under the public-only policy, a non-visible parent yields nothing. *)
Lemma collect_item_hidden_parent (it : Item) module_path reflect_types :
  collect_item it module_path reflect_types true false = reflect_types.
Proof.
  destruct it as [a v i|a v i|a v i [its|]|]; simpl; try done.
  - by destruct (derives_reflect_and_component_but_no_reflect_component a); rewrite ?andb_false_r.
  - by destruct (derives_reflect_and_component_but_no_reflect_component a); rewrite ?andb_false_r.
  - destruct (has_cfg_test a); simpl; [done|]. by rewrite andb_false_r.
  - destruct (has_cfg_test a); simpl; [done|]. by rewrite andb_false_r.
Qed.

Lemma collect_items_hidden_parent (its : list Item) module_path reflect_types :
  collect_items its module_path reflect_types true false = reflect_types.
Proof.
  unfold collect_items. revert reflect_types.
  induction its as [|x xs IH]; intros acc; simpl; [done|].
  by rewrite collect_item_hidden_parent, IH.
Qed.

(** C4.  A module's body is walked with the visibility
    [own modifier is pub && parent visible]; the root starts visible; with
    a non-visible parent nothing is reported under the public-only policy,
    so a qualifying [pub] type in [pub mod inner] inside a private
    [mod outer] is excluded, while the same nesting under a [pub mod outer]
    reports it. *)
Theorem visibility_propagates_and (attrs_outer attrs_inner attrs_ty : list Attribute)
    (v_outer : Visibility) (ty : string) (module_path : string)
    (reflect_types : list string) :
  v_outer <> VisPublic ->
  (forall attrs v ident its mp acc po pp,
     has_cfg_test attrs = false ->
     (po = false \/ vis_is_public v && pp = true) ->
     collect_item (ItemMod attrs v ident (Some its)) mp acc po pp =
     collect_items its (join2 mp ident) acc po (vis_is_public v && pp)) /\
  (forall its mp acc, collect_items its mp acc true false = acc) /\
  collect_items
    [ItemMod attrs_outer v_outer "outer"
       (Some [ItemMod attrs_inner VisPublic "inner"
                (Some [ItemStruct attrs_ty VisPublic ty])])]
    module_path reflect_types true true = reflect_types /\
  (has_cfg_test attrs_outer = false -> has_cfg_test attrs_inner = false ->
   derives_reflect_and_component_but_no_reflect_component attrs_ty = true ->
   collect_items
     [ItemMod attrs_outer VisPublic "outer"
        (Some [ItemMod attrs_inner VisPublic "inner"
                 (Some [ItemStruct attrs_ty VisPublic ty])])]
     module_path reflect_types true true =
   reflect_types ++ [join2 (join2 (join2 module_path "outer") "inner") ty]).
Proof.
  intros Hv. split; [|split; [|split]].
  - intros attrs v ident its mp acc po pp Hcfg Hpol.
    rewrite collect_item_mod, Hcfg.
    destruct Hpol as [-> | Hp]; [done | by rewrite Hp, andb_false_r].
  - intros its mp acc. apply collect_items_hidden_parent.
  - unfold collect_items. cbn [fold_left]. rewrite collect_item_mod.
    destruct (has_cfg_test attrs_outer); [done|].
    destruct v_outer; simpl; try done; by apply collect_items_hidden_parent.
  - intros Ho Hi Hty. unfold collect_items. cbn [fold_left].
    rewrite collect_item_mod, Ho. cbn [andb negb vis_is_public].
    unfold collect_items. cbn [fold_left].
    rewrite collect_item_mod, Hi. cbn [andb negb vis_is_public].
    unfold collect_items. cbn [fold_left].
    simpl. by rewrite Hty.
Qed.

Lemma visibility_propagates_and_witness :
  VisInherited <> VisPublic /\
  collect_items
    [ItemMod [] VisInherited "outer"
       (Some [ItemMod [] VisPublic "inner" (Some [ItemStruct [derive_rc] VisPublic "T"])])]
    "c" [] true true = [].
Proof.
  split; [discriminate|].
  apply (visibility_propagates_and [] [] [derive_rc] VisInherited "T" "c" []).
  discriminate.
Defined.

(** C9.  The test guard is only consulted on modules: a struct or enum
    that itself carries [#[cfg(test)]], satisfies the predicate and is
    [pub] under a visible parent is reported. *)
Theorem cfg_test_on_type_still_reported (attrs : list Attribute) (ident : string)
    (module_path : string) (reflect_types : list string) :
  has_cfg_test attrs = true ->
  derives_reflect_and_component_but_no_reflect_component attrs = true ->
  collect_item (ItemStruct attrs VisPublic ident) module_path reflect_types true true =
  reflect_types ++ [join2 module_path ident] /\
  collect_item (ItemEnum attrs VisPublic ident) module_path reflect_types true true =
  reflect_types ++ [join2 module_path ident].
Proof. intros _ Hd. simpl. by rewrite Hd. Qed.

Lemma cfg_test_on_type_still_reported_witness :
  has_cfg_test [cfg_test; derive_rc] = true /\
  derives_reflect_and_component_but_no_reflect_component [cfg_test; derive_rc] = true /\
  collect_item (ItemStruct [cfg_test; derive_rc] VisPublic "Foo") "c" [] true true =
  [] ++ [join2 "c" "Foo"] /\
  collect_item (ItemEnum [cfg_test; derive_rc] VisPublic "Foo") "c" [] true true =
  [] ++ [join2 "c" "Foo"].
Proof.
  split; [reflexivity|]. split; [reflexivity|].
  apply (cfg_test_on_type_still_reported [cfg_test; derive_rc] "Foo" "c" []);
    reflexivity.
Defined.

(** C10.  Only [Visibility::Public] makes an item public; under the
    public-only policy a struct, enum or module with any other visibility
    ([pub(crate)], [pub(super)], [pub(in path)], none) contributes nothing,
    so nothing nested in such a module is reported either. *)
Theorem only_plain_pub_is_public (v : Visibility) :
  v <> VisPublic ->
  (forall item : Item,
     is_public item = true <->
     (exists a i, item = ItemStruct a VisPublic i) \/
     (exists a i, item = ItemEnum a VisPublic i) \/
     (exists a i c, item = ItemMod a VisPublic i c)) /\
  (forall attrs ident content module_path reflect_types parent_is_public,
     collect_item (ItemStruct attrs v ident) module_path reflect_types true parent_is_public
       = reflect_types /\
     collect_item (ItemEnum attrs v ident) module_path reflect_types true parent_is_public
       = reflect_types /\
     collect_item (ItemMod attrs v ident content) module_path reflect_types true
       parent_is_public = reflect_types).
Proof.
  intros Hv. assert (Hf : vis_is_public v = false) by (destruct v; done).
  split.
  - intros item. split.
    + destruct item as [a w i|a w i|a w i c|]; simpl; try done; destruct w; try done;
        intros _; eauto 10.
    + intros [(a & i & ->)|[(a & i & ->)|(a & i & c & ->)]]; done.
  - intros attrs ident content mp acc pp. split; [|split].
    + simpl. rewrite Hf. by destruct (derives_reflect_and_component_but_no_reflect_component attrs).
    + simpl. rewrite Hf. by destruct (derives_reflect_and_component_but_no_reflect_component attrs).
    + destruct content as [its|].
      * rewrite collect_item_mod, Hf. by destruct (has_cfg_test attrs).
      * apply collect_item_mod_none.
Qed.

Lemma only_plain_pub_is_public_witness :
  VisRestricted false (mkPath false ["crate"]) <> VisPublic /\
  collect_item (ItemMod [] (VisRestricted false (mkPath false ["crate"])) "m"
                  (Some [ItemStruct [derive_rc] VisPublic "Foo"])) "c" [] true true = [].
Proof.
  split; [discriminate|].
  apply (only_plain_pub_is_public (VisRestricted false (mkPath false ["crate"]))).
  discriminate.
Defined.

(* ------------------------------------------------------------------ *)
(** ** Module paths *)

Lemma length_str_app (a b : string) :
  String.length (String.append a b) = String.length a + String.length b.
Proof. induction a; simpl; auto. Qed.

Lemma substring_app_l (a b : string) :
  String.substring 0 (String.length a) (String.append a b) = a.
Proof. induction a; simpl; [by destruct b|by rewrite IHa]. Qed.

Lemma substring_full (b : string) : String.substring 0 (String.length b) b = b.
Proof. induction b as [|c b IH]; [done|cbn; by rewrite IH]. Qed.

Lemma substring_app_r (a b : string) :
  String.substring (String.length a) (String.length b) (String.append a b) = b.
Proof.
  induction a as [|c a IH]; [|exact IH].
  exact (substring_full b).
Qed.

Lemma trim_end_rs_stop (fuel : nat) (s : string) :
  ends_with_rs s = false -> trim_end_rs fuel s = s.
Proof. intros H. destruct fuel; simpl; [done|by rewrite H]. Qed.

Lemma trim_rs_suffix (f : string) :
  ends_with_rs f = false -> trim_end_matches_rs (String.append f ".rs") = f.
Proof.
  intros Hf. unfold trim_end_matches_rs.
  assert (Hlen : String.length (String.append f ".rs") = S (String.length f + 2))
    by (rewrite length_str_app; simpl; lia).
  assert (Hsuf : String.substring (String.length f) 3 (String.append f ".rs") = ".rs")
    by exact (substring_app_r f ".rs").
  assert (He : ends_with_rs (String.append f ".rs") = true).
  { unfold ends_with_rs. rewrite Hlen.
    replace (S (String.length f + 2) - 3) with (String.length f) by lia.
    rewrite Hsuf. apply andb_true_intro. split; [apply Nat.leb_le; lia|done]. }
  rewrite Hlen. cbn [trim_end_rs]. rewrite He, Hlen.
  replace (S (String.length f + 2) - 3) with (String.length f) by lia.
  rewrite substring_app_l. by apply trim_end_rs_stop.
Qed.

Lemma trim_rs_plain (f : string) :
  ends_with_rs f = false -> trim_end_matches_rs f = f.
Proof. apply trim_end_rs_stop. Qed.

Lemma rel_path_app (a b : list component) :
  relative_path_to_module_path (a ++ b) =
  String.concat "::"
    (List.filter (fun s => negb (String.eqb s "mod"))
       (map (fun c => trim_end_matches_rs (component_str c)) a) ++
     List.filter (fun s => negb (String.eqb s "mod"))
       (map (fun c => trim_end_matches_rs (component_str c)) b)).
Proof. unfold relative_path_to_module_path. by rewrite map_app, List.filter_app. Qed.

Lemma plain_segments (ds : list string) :
  Forall (fun d => ends_with_rs d = false /\ d <> "mod") ds ->
  List.filter (fun s => negb (String.eqb s "mod"))
    (map (fun c => trim_end_matches_rs (component_str c)) (map Normal ds)) = ds.
Proof.
  induction 1 as [|d ds [Hd Hm] _ IH]; [done|]. simpl.
  rewrite trim_rs_plain by done.
  replace (String.eqb d "mod") with false by (symmetry; by apply String.eqb_neq).
  simpl. by rewrite IH.
Qed.

(** C5 counterexample: a ["mod"] directory that is not the final segment
    is dropped too, so [mod/b.rs] does not give [mod::b]. *)
Lemma module_path_inner_mod_dropped :
  relative_path_to_module_path (components "mod/b.rs") = "b" /\
  relative_path_to_module_path (components "mod/b.rs") <> "mod::b".
Proof. split; [reflexivity|discriminate]. Qed.

(* ------------------------------------------------------------------ *)
(** ** Source discovery *)

Lemma str_app_cons (x : ascii) (a b : string) :
  String.append (String x a) b = String x (String.append a b).
Proof. reflexivity. Qed.

Lemma str_app_assoc (a b c : string) :
  String.append (String.append a b) c = String.append a (String.append b c).
Proof. induction a as [|x a IH]; [done|]. by rewrite !str_app_cons, IH. Qed.

Lemma split_slash_nonempty (s : string) : split_slash s <> [].
Proof.
  induction s as [|c s IH]; simpl; [done|].
  destruct (Ascii.eqb c "/"%char); [done|]. by destruct (split_slash s).
Qed.

Lemma split_slash_app (s t : string) :
  split_slash (String.append s (String "/"%char t)) = split_slash s ++ split_slash t.
Proof.
  induction s as [|c s IH]; [done|]. simpl.
  destruct (Ascii.eqb c "/"%char); [by rewrite IH|].
  rewrite IH. destruct (split_slash s) eqn:E; [by destruct (split_slash_nonempty s)|].
  done.
Qed.

Lemma normal_parts_snoc (xs : list string) (nm : string) :
  simple_name nm -> normal_parts (xs ++ [nm]) = normal_parts xs ++ [Normal nm].
Proof.
  intros (_ & H1 & H2 & H3). unfold normal_parts. rewrite omap_app. simpl.
  apply String.eqb_neq in H1, H2, H3. by rewrite H1, H2, H3.
Qed.

Lemma file_name_after_slash (d nm : string) :
  simple_name nm -> file_name (String.append d (String "/"%char nm)) = Some nm.
Proof.
  intros Hs. unfold file_name, components.
  rewrite split_slash_app. destruct Hs as [Hnm Hrest]. rewrite Hnm.
  destruct (split_slash d) as [|w ws] eqn:E; [by destruct (split_slash_nonempty d)|].
  simpl. assert (Hs : simple_name nm) by (split; done).
  destruct (String.eqb w ""); [|destruct (String.eqb w ".")].
  - rewrite normal_parts_snoc by done. by rewrite app_comm_cons, last_snoc.
  - rewrite normal_parts_snoc by done. by rewrite app_comm_cons, last_snoc.
  - rewrite normal_parts_snoc by done.
    destruct (String.eqb w ".."); by rewrite ?app_comm_cons, last_snoc.
Qed.

Lemma get_last_slash (s : string) :
  String.get (String.length s - 1) s = Some "/"%char ->
  exists d, s = String.append d "/".
Proof.
  induction s as [|c s IH]; [done|]. intros H.
  destruct s as [|c' s'].
  - simpl in H. injection H as ->. by exists "".
  - simpl in H. replace (String.length s' - 0) with (String.length s') in H by lia.
    destruct IH as [d Hd].
    { simpl. by replace (String.length s' - 0) with (String.length s') by lia. }
    exists (String c d). simpl. by rewrite Hd.
Qed.

Lemma file_name_path_join (dir nm : string) :
  simple_name nm -> file_name (path_join dir nm) = Some nm.
Proof.
  intros Hs. unfold path_join.
  destruct (String.get (String.length dir - 1) dir) as [c|] eqn:Eg.
  - destruct (Ascii.eqb_spec c "/"%char) as [->|Hc].
    + destruct (get_last_slash dir Eg) as [d ->].
      rewrite str_app_assoc. by apply file_name_after_slash.
    + destruct (String.eqb dir "") eqn:Ed.
      * apply String.eqb_eq in Ed as ->. done.
      * destruct c as [b0 b1 b2 b3 b4 b5 b6 b7];
          destruct b0, b1, b2, b3, b4, b5, b6, b7; try by apply file_name_after_slash.
        done.
  - destruct (String.eqb dir "") eqn:Ed.
    + apply String.eqb_eq in Ed as ->. destruct Hs as (Hn & H1 & H2 & H3).
      unfold file_name, components. rewrite Hn.
      apply String.eqb_neq in H1, H2, H3. rewrite H1, H2. unfold normal_parts. simpl.
      by rewrite H1, H2, H3.
    + by apply file_name_after_slash.
Qed.

Lemma walk_pruned (dir nm : string) (c : node) :
  simple_name nm -> (nm = "examples" \/ nm = "tests") -> walk (path_join dir nm) c = [].
Proof.
  intros Hs Hnm. assert (Hx : should_include_dir (path_join dir nm) = false).
  { unfold should_include_dir. rewrite file_name_path_join by done.
    by destruct Hnm as [->| ->]. }
  destruct c; simpl; by rewrite ?Hx.
Qed.

Lemma simple_examples : simple_name "examples".
Proof. repeat split; discriminate. Qed.

Lemma simple_tests : simple_name "tests".
Proof. repeat split; discriminate. Qed.

(** C6 (as the code does it).  A child entry named [examples] or [tests]
    yields nothing, its subtree included, at any depth: walking a directory
    is the same as walking it with those children removed.  [fixtures] is
    not in the exclusion set. *)
Theorem discovery_prunes_examples_tests :
  (forall (dir : string) (c : node),
     walk (path_join dir "examples") c = [] /\ walk (path_join dir "tests") c = []) /\
  (forall (dir : string) (children : list (string * node)),
     walk dir (NDir children) =
     walk dir (NDir (List.filter (fun '(nm, _) => negb (excluded_name nm)) children))) /\
  (forall dir : string, should_include_dir (path_join dir "fixtures") = true).
Proof.
  split; [|split].
  - intros dir c. split.
    + apply walk_pruned; [apply simple_examples|by left].
    + apply walk_pruned; [apply simple_tests|by right].
  - intros dir children. simpl. destruct (should_include_dir dir); [|done]. f_equal.
    induction children as [|[nm c] children IH]; [done|]. cbn [List.filter].
    destruct (excluded_name nm) eqn:Ex; cbn [negb map List.concat].
    + unfold excluded_name in Ex. apply orb_true_iff in Ex as [Ex|Ex];
        apply String.eqb_eq in Ex as ->.
      * rewrite walk_pruned by (first [apply simple_examples | by left]). exact IH.
      * rewrite walk_pruned by (first [apply simple_tests | by right]). exact IH.
    + by rewrite IH.
  - intros dir. unfold should_include_dir.
    rewrite file_name_path_join by (repeat split; discriminate). reflexivity.
Qed.

(** C6 counterexample: a file under a [fixtures] directory is yielded. *)
Lemma discovery_keeps_fixtures :
  In "./src/fixtures/b.rs"
    (collect_source_files "./src" (NDir [("fixtures", NDir [("b.rs", NFile)])])).
Proof. vm_compute. auto. Qed.

(* ------------------------------------------------------------------ *)
(** ** [main] *)

Lemma findings_flat_map (metadata : Metadata) (entries : list (string * File)) :
  findings metadata entries = flat_map (contrib metadata) entries.
Proof.
  unfold findings. rewrite <- (app_nil_l (flat_map _ _)). generalize (@nil string) as acc.
  induction entries as [|[p f] entries IH]; intros acc; simpl; [by rewrite app_nil_r|].
  rewrite IH. unfold contrib. simpl.
  destruct (resolve_module_path p metadata); [|done].
  unfold collect_reflect_types. by rewrite collect_items_acc, app_assoc.
Qed.

Lemma flat_map_perm {A B} (f : A -> list B) (l1 l2 : list A) :
  l1 ≡ₚ l2 -> flat_map f l1 ≡ₚ flat_map f l2.
Proof.
  induction 1 as [|x l1 l2 _ IH|x y l|l1 l2 l3 _ IH1 _ IH2]; simpl.
  - done.
  - by apply Permutation_app_head.
  - apply Permutation_app_swap_app.
  - by rewrite IH1.
Qed.



Lemma build_module_tree_fold (load : string -> option File) (files : list string)
    (m : gmap string File) (q : string) :
  fold_left (fun module_tree path =>
    match load path with
    | Some syntax => <[path := syntax]> module_tree
    | None => module_tree
    end) files m !! q =
  if bool_decide (q ∈ files) then
    match load q with Some f => Some f | None => m !! q end
  else m !! q.
Proof.
  revert m. induction files as [|p files IH]; intros m; simpl.
  - done.
  - rewrite IH. destruct (decide (q = p)) as [->|Hne].
    + rewrite (bool_decide_true (p ∈ p :: files)) by (apply elem_of_cons; by left).
      destruct (load p) eqn:E; case_bool_decide; by rewrite ?lookup_insert_eq.
    + replace (bool_decide (q ∈ p :: files)) with (bool_decide (q ∈ files)).
      2:{ apply bool_decide_ext. rewrite elem_of_cons. naive_solver. }
      destruct (load p); [|done]. rewrite lookup_insert_ne by congruence. done.
Qed.

Lemma build_module_tree_lookup (load : string -> option File) (files : list string) (q : string) :
  build_module_tree load files !! q = if bool_decide (q ∈ files) then load q else None.
Proof.
  unfold build_module_tree. rewrite build_module_tree_fold.
  case_bool_decide; [|done]. by destruct (load q).
Qed.







(** C8.  Two runs over the same set of discovered files (in any order,
    with any repetitions), the same contents and the same metadata print
    the same findings up to order, whatever [HashMap] order each run
    uses. *)
Theorem two_run_determinism (metadata : Metadata) (load : string -> option File)
    (files1 files2 : list string) (out1 out2 : list string) :
  (forall x, x ∈ files1 <-> x ∈ files2) ->
  main_output_from metadata load files1 out1 ->
  main_output_from metadata load files2 out2 ->
  out1 ≡ₚ out2.
Proof.
  intros Hset (e1 & H1 & ->) (e2 & H2 & ->).
  assert (HT : build_module_tree load files1 = build_module_tree load files2).
  { apply map_eq. intros q. rewrite !build_module_tree_lookup.
    by rewrite (bool_decide_ext _ _ (Hset q)). }
  rewrite !findings_flat_map. apply flat_map_perm.
  rewrite H1, H2, HT. done.
Qed.

Lemma two_run_determinism_witness :
  (forall x, x ∈ ["/reg/bevy_x/src/lib.rs"; "/reg/bevy_x/src/a.rs"] <->
             x ∈ ["/reg/bevy_x/src/a.rs"; "/reg/bevy_x/src/lib.rs"; "/reg/bevy_x/src/a.rs"]) /\
  main_output_from bevy_metadata dep_load ["/reg/bevy_x/src/lib.rs"; "/reg/bevy_x/src/a.rs"]
    ["bevy_x::src::a::Bar"; "bevy_x::src::lib::Foo"] /\
  main_output_from bevy_metadata dep_load
    ["/reg/bevy_x/src/a.rs"; "/reg/bevy_x/src/lib.rs"; "/reg/bevy_x/src/a.rs"]
    ["bevy_x::src::lib::Foo"; "bevy_x::src::a::Bar"] /\
  ["bevy_x::src::a::Bar"; "bevy_x::src::lib::Foo"] ≡ₚ
    ["bevy_x::src::lib::Foo"; "bevy_x::src::a::Bar"].
Proof.
  assert (Hs : forall x, x ∈ ["/reg/bevy_x/src/lib.rs"; "/reg/bevy_x/src/a.rs"] <->
             x ∈ ["/reg/bevy_x/src/a.rs"; "/reg/bevy_x/src/lib.rs"; "/reg/bevy_x/src/a.rs"])
    by (intros x; set_solver).
  assert (H1 : main_output_from bevy_metadata dep_load
                 ["/reg/bevy_x/src/lib.rs"; "/reg/bevy_x/src/a.rs"]
                 ["bevy_x::src::a::Bar"; "bevy_x::src::lib::Foo"]).
  { exists (map_to_list (build_module_tree dep_load
              ["/reg/bevy_x/src/lib.rs"; "/reg/bevy_x/src/a.rs"])).
    split; [reflexivity|vm_compute; reflexivity]. }
  assert (H2 : main_output_from bevy_metadata dep_load
                 ["/reg/bevy_x/src/a.rs"; "/reg/bevy_x/src/lib.rs"; "/reg/bevy_x/src/a.rs"]
                 ["bevy_x::src::lib::Foo"; "bevy_x::src::a::Bar"]).
  { exists (reverse (map_to_list (build_module_tree dep_load
              ["/reg/bevy_x/src/a.rs"; "/reg/bevy_x/src/lib.rs"; "/reg/bevy_x/src/a.rs"]))).
    split; [apply reverse_Permutation|vm_compute; reflexivity]. }
  split; [exact Hs|split; [exact H1|split; [exact H2|]]].
  exact (two_run_determinism _ _ _ _ _ _ Hs H1 H2).
Defined.

(** The run on a single discovered file [p]: its only enumeration is the
    one entry. *)
Lemma single_file_output (metadata : Metadata) (load : string -> option File)
    (p : string) (f : File) (out : list string) :
  load p = Some f ->
  main_output_from metadata load [p] out <-> out = contrib metadata (p, f).
Proof.
  intros Hl. unfold main_output_from.
  assert (HT : map_to_list (build_module_tree load [p]) = [(p, f)]).
  { unfold build_module_tree. simpl. rewrite Hl. rewrite insert_empty. apply map_to_list_singleton. }
  rewrite HT. split.
  - intros (entries & Hperm & ->). symmetry in Hperm.
    apply Permutation_length_1_inv in Hperm as ->.
    rewrite findings_flat_map. simpl. by rewrite app_nil_r.
  - intros ->. exists [(p, f)]. split; [done|].
    rewrite findings_flat_map. simpl. by rewrite app_nil_r.
Qed.

(** One file holding one [pub] type: when its module path resolves to
    [mp], the findings are [mp::Name] exactly if the predicate holds (so
    adding [#[reflect(Component)]] empties them); when it does not
    resolve they are empty. *)
Lemma single_type_file_findings (metadata : Metadata) (load : string -> option File)
    (p : string) (attrs : list Attribute) (ident : string) (out : list string) :
  load p = Some (mkFile [ItemStruct attrs VisPublic ident]) ->
  main_output_from metadata load [p] out <->
  out = match resolve_module_path p metadata with
        | Some mp =>
            if derives_reflect_and_component_but_no_reflect_component attrs
            then [join2 mp ident] else []
        | None => []
        end.
Proof.
  intros Hl. rewrite (single_file_output metadata load p _ out Hl).
  unfold contrib. simpl. destruct (resolve_module_path p metadata); [|done].
  unfold collect_reflect_types, collect_items. simpl.
  by destruct (derives_reflect_and_component_but_no_reflect_component attrs).
Qed.

(** C2 (failing input).  [main] scans ["./src"], so the project file is
    discovered as ["./src/lib.rs"]; no package root is a prefix of this
    relative path and it does not start with the component ["src"], so its
    module path does not resolve and the qualifying type is not reported:
    every possible output is empty. *)
Theorem local_file_not_reported (out : list string) :
  discover app_metadata app_fs = ["./src/lib.rs"] /\
  resolve_module_path "./src/lib.rs" app_metadata = None /\
  (main_output app_metadata app_fs app_load out <-> out = []).
Proof.
  assert (Hd : discover app_metadata app_fs = ["./src/lib.rs"]) by (vm_compute; reflexivity).
  assert (Hr : resolve_module_path "./src/lib.rs" app_metadata = None) by (vm_compute; reflexivity).
  split; [done|]. split; [done|].
  unfold main_output. rewrite Hd.
  rewrite (single_type_file_findings app_metadata app_load "./src/lib.rs" [derive_rc] "Foo" out)
    by reflexivity.
  by rewrite Hr.
Qed.

(* ------------------------------------------------------------------ *)
(** ** Further properties: module-path resolution *)

Lemma starts_with_strip (p base : list component) :
  starts_with p base = true -> strip_prefix p base = Some (drop (List.length base) p) /\
  p = base ++ drop (List.length base) p.
Proof.
  revert p. induction base as [|y base IH]; intros [|x p]; simpl; try done.
  intros H. apply andb_true_iff in H as [Hxy H]. apply bool_decide_eq_true in Hxy as ->.
  rewrite bool_decide_true by done. destruct (IH p H) as [-> Hp]. split; [done|].
  by rewrite <- Hp.
Qed.

Lemma strip_prefix_Some (p base rel : list component) :
  strip_prefix p base = Some rel <-> p = base ++ rel.
Proof.
  revert p. induction base as [|y base IH]; intros [|x p]; simpl; try naive_solver.
  case_bool_decide as Hxy.
  - subst. rewrite IH. naive_solver.
  - naive_solver.
Qed.

Lemma crate_root_for_file_spec (path : list component) (metadata : Metadata)
    (n : string) :
  crate_root_for_file path metadata = Some n <->
  exists pre pkg post root,
    packages metadata = pre ++ pkg :: post /\ name pkg = n /\
    parent (components (manifest_path pkg)) = Some root /\
    starts_with path root = true /\
    Forall (fun q => exists r, parent (components (manifest_path q)) = Some r /\
                               starts_with path r = false) pre.
Proof.
  unfold crate_root_for_file. generalize (packages metadata) as pkgs.
  induction pkgs as [|q pkgs IH]; simpl.
  - split; [done|]. intros (pre & pkg & post & root & Hl & _). by destruct pre.
  - destruct (parent (components (manifest_path q))) as [r|] eqn:Hq.
    + destruct (starts_with path r) eqn:Hs.
      * split.
        -- intros [= <-]. exists [], q, pkgs, r. done.
        -- intros (pre & pkg & post & root & Hl & Hn & Hp & Hsw & Hpre).
           destruct pre as [|q' pre]; simpl in Hl; injection Hl as <- Hl.
           ++ by subst.
           ++ inversion Hpre as [|? ? (r' & Hr' & Hs') _]; subst. congruence.
      * rewrite IH. split.
        -- intros (pre & pkg & post & root & Hl & Hn & Hp & Hsw & Hpre).
           exists (q :: pre), pkg, post, root. rewrite Hl. repeat split; try done.
           constructor; [by exists r|done].
        -- intros (pre & pkg & post & root & Hl & Hn & Hp & Hsw & Hpre).
           destruct pre as [|q' pre]; simpl in Hl; injection Hl as <- Hl.
           ++ congruence.
           ++ inversion Hpre; subst. exists pre, pkg, post, root. done.
    + split; [done|].
      intros (pre & pkg & post & root & Hl & Hn & Hp & Hsw & Hpre).
      destruct pre as [|q' pre]; simpl in Hl; injection Hl as <- Hl.
      * congruence.
      * inversion Hpre as [|? ? (r' & Hr' & _) _]; subst. congruence.
Qed.

(** [crate_root_for_file] returns the name of the first package whose
    manifest directory is a prefix of the path, provided every package
    before it has a manifest directory (none of which is a prefix). *)
Theorem crate_root_for_file_first_match (path : list component) (metadata : Metadata)
    (n : string) :
  crate_root_for_file path metadata = Some n <->
  exists pre pkg post root,
    packages metadata = pre ++ pkg :: post /\ name pkg = n /\
    parent (components (manifest_path pkg)) = Some root /\
    starts_with path root = true /\
    Forall (fun q => exists r, parent (components (manifest_path q)) = Some r /\
                               starts_with path r = false) pre.
Proof. apply crate_root_for_file_spec. Qed.

Lemma find_first_name (pre post : list Package) (pkg : Package) :
  List.NoDup (map name (pre ++ pkg :: post)) ->
  List.find (fun q => String.eqb (name q) (name pkg)) (pre ++ pkg :: post) = Some pkg.
Proof.
  induction pre as [|q pre IH]; simpl; intros Hnd.
  - by rewrite String.eqb_refl.
  - apply NoDup_cons_iff in Hnd as [Hq Hnd].
    replace (String.eqb (name q) (name pkg)) with false; [by apply IH|].
    symmetry. apply String.eqb_neq. intros Heq. apply Hq. rewrite Heq, map_app.
    apply in_or_app. right. by left.
Qed.

(** When package names are distinct, a file owned by a package always
    resolves: the module path is the package name, [::], and the module
    path of the rest of the file path below the package's directory. *)
Theorem resolve_owned_file (path : string) (metadata : Metadata) (n : string) :
  List.NoDup (map name (packages metadata)) ->
  crate_root_for_file (components path) metadata = Some n ->
  exists root rel,
    crate_root_path n metadata = Some root /\
    components path = root ++ rel /\
    resolve_module_path path metadata = Some (join2 n (relative_path_to_module_path rel)).
Proof.
  intros Hnd Hc.
  destruct (proj1 (crate_root_for_file_spec _ _ _) Hc)
    as (pre & pkg & post & root & Hl & Hn & Hp & Hsw & _).
  assert (Hroot : crate_root_path n metadata = Some root).
  { unfold crate_root_path. rewrite Hl, <- Hn, find_first_name; [done|]. by rewrite <- Hl. }
  destruct (starts_with_strip _ _ Hsw) as [Hstrip Heq].
  exists root, (drop (List.length root) (components path)). split; [done|]. split; [done|].
  unfold resolve_module_path. rewrite Hc, Hroot, Hstrip. done.
Qed.

Lemma resolve_owned_file_witness :
  List.NoDup (map name (packages bevy_metadata)) /\
  crate_root_for_file (components "/reg/bevy_x/src/lib.rs") bevy_metadata = Some "bevy_x" /\
  exists root rel,
    crate_root_path "bevy_x" bevy_metadata = Some root /\
    components "/reg/bevy_x/src/lib.rs" = root ++ rel /\
    resolve_module_path "/reg/bevy_x/src/lib.rs" bevy_metadata =
      Some (join2 "bevy_x" (relative_path_to_module_path rel)).
Proof.
  assert (Hnd : List.NoDup (map name (packages bevy_metadata))).
  { simpl. apply List.NoDup_cons; [simpl; intros [H|[]]; discriminate|].
    apply List.NoDup_cons; [intros []|apply List.NoDup_nil]. }
  assert (Hc : crate_root_for_file (components "/reg/bevy_x/src/lib.rs") bevy_metadata
               = Some "bevy_x") by (vm_compute; reflexivity).
  split; [exact Hnd|]. split; [exact Hc|].
  exact (resolve_owned_file "/reg/bevy_x/src/lib.rs" bevy_metadata "bevy_x" Hnd Hc).
Defined.

(** A file no package owns resolves exactly when its path starts with the
    component [src]; the module path is then that of the rest, without a
    crate prefix. *)
Theorem resolve_fallback (path : string) (metadata : Metadata) (m : string) :
  crate_root_for_file (components path) metadata = None ->
  resolve_module_path path metadata = Some m <->
  exists rel, components path = Normal "src" :: rel /\ m = relative_path_to_module_path rel.
Proof.
  intros Hc. unfold resolve_module_path. rewrite Hc.
  change (components "src") with [Normal "src"].
  destruct (strip_prefix (components path) [Normal "src"]) as [rel|] eqn:Hs.
  - apply strip_prefix_Some in Hs. simpl in Hs. split.
    + intros [= <-]. by exists rel.
    + intros (rel' & Hp & ->). rewrite Hp in Hs. by injection Hs as ->.
  - split; [done|]. intros (rel & Hp & _).
    assert (Hs' : strip_prefix (components path) [Normal "src"] = Some rel)
      by (apply strip_prefix_Some; done).
    congruence.
Qed.

Lemma resolve_fallback_witness :
  crate_root_for_file (components "src/a/b.rs") (mkMetadata []) = None /\
  (resolve_module_path "src/a/b.rs" (mkMetadata []) = Some "a::b" <->
   exists rel, components "src/a/b.rs" = Normal "src" :: rel /\
               "a::b" = relative_path_to_module_path rel).
Proof.
  split; [reflexivity|]. apply resolve_fallback. reflexivity.
Defined.

(* ------------------------------------------------------------------ *)
(** ** Further properties: the walker and the module tree *)

Lemma collect_items_flat_map (its : list Item) module_path public_only parent_is_public :
  collect_items its module_path [] public_only parent_is_public =
  flat_map (fun it => collect_item it module_path [] public_only parent_is_public) its.
Proof.
  induction its as [|x xs IH]; [done|]. cbn [flat_map]. rewrite <- IH.
  change (collect_items xs module_path
            (collect_item x module_path [] public_only parent_is_public)
            public_only parent_is_public =
          collect_item x module_path [] public_only parent_is_public ++
          collect_items xs module_path [] public_only parent_is_public).
  apply collect_items_acc.
Qed.

(** With the public-only policy off, the parent's visibility has no
    effect on what is collected. *)
Theorem collect_ignores_visibility_when_not_public_only (it : Item) :
  forall module_path reflect_types pp1 pp2,
    collect_item it module_path reflect_types false pp1 =
    collect_item it module_path reflect_types false pp2.
Proof.
  induction it as [a v i|a v i|a v i|a v i its Hits|] using item_nested_ind;
    intros mp acc pp1 pp2.
  - done.
  - done.
  - by rewrite !collect_item_mod_none.
  - rewrite !collect_item_mod. destruct (has_cfg_test a); [done|]. simpl.
    rewrite (collect_items_acc its _ acc), (collect_items_acc its _ acc).
    rewrite !collect_items_flat_map. f_equal.
    induction Hits as [|x xs Hx _ IH]; simpl; [done|].
    by rewrite (Hx _ [] (vis_is_public v && pp1) (vis_is_public v && pp2)), IH.
  - done.
Qed.

(** What the public-only policy reports is a sublist (same order) of
    what the unrestricted walk reports. *)
Theorem public_only_sublist (it : Item) :
  forall module_path parent_is_public,
    sublist (collect_item it module_path [] true parent_is_public)
            (collect_item it module_path [] false parent_is_public).
Proof.
  induction it as [a v i|a v i|a v i|a v i its Hits|] using item_nested_ind;
    intros mp pp.
  - simpl. destruct (derives_reflect_and_component_but_no_reflect_component a); [|done].
    destruct (vis_is_public v && pp); simpl; [done|]. apply sublist_nil_l.
  - simpl. destruct (derives_reflect_and_component_but_no_reflect_component a); [|done].
    destruct (vis_is_public v && pp); simpl; [done|]. apply sublist_nil_l.
  - by rewrite !collect_item_mod_none.
  - rewrite !collect_item_mod. destruct (has_cfg_test a); [done|]. simpl.
    destruct (vis_is_public v && pp); simpl; [|apply sublist_nil_l].
    rewrite !collect_items_flat_map.
    induction Hits as [|x xs Hx _ IH]; simpl; [done|].
    by apply sublist_app.
  - done.
Qed.

(** Every finding is qualified by the module path it was collected
    under: it has the form [module_path::rest]. *)
Theorem findings_qualified (it : Item) :
  forall module_path public_only parent_is_public x,
    In x (collect_item it module_path [] public_only parent_is_public) ->
    exists rest, x = join2 module_path rest.
Proof.
  induction it as [a v i|a v i|a v i|a v i its Hits|] using item_nested_ind;
    intros mp po pp x Hx.
  - simpl in Hx. destruct (derives_reflect_and_component_but_no_reflect_component a); [|done].
    destruct (po && negb (vis_is_public v && pp)); simpl in Hx; [done|].
    destruct Hx as [<-|[]]. by exists i.
  - simpl in Hx. destruct (derives_reflect_and_component_but_no_reflect_component a); [|done].
    destruct (po && negb (vis_is_public v && pp)); simpl in Hx; [done|].
    destruct Hx as [<-|[]]. by exists i.
  - by rewrite collect_item_mod_none in Hx.
  - rewrite collect_item_mod in Hx. destruct (has_cfg_test a); [done|].
    destruct (po && negb (vis_is_public v && pp)); [done|].
    rewrite collect_items_flat_map in Hx. apply in_flat_map in Hx as (y & Hy & Hx).
    rewrite Forall_forall in Hits.
    destruct (Hits y (proj2 (list_elem_of_In _ _) Hy) _ _ _ _ Hx) as [rest ->].
    exists (join2 i rest). unfold join2. by rewrite !str_app_assoc.
  - done.
Qed.

Lemma findings_qualified_witness :
  In "m::Foo" (collect_item (ItemStruct [derive_rc] VisPublic "Foo") "m" [] true true) /\
  exists rest, "m::Foo" = join2 "m" rest.
Proof.
  assert (H : In "m::Foo" (collect_item (ItemStruct [derive_rc] VisPublic "Foo") "m" [] true true))
    by (vm_compute; auto).
  split; [exact H|]. exact (findings_qualified _ "m" true true "m::Foo" H).
Defined.

(** Runs over two discovered lists with the same elements (for instance a
    list and the same list with repetitions) have exactly the same
    possible outputs: a path discovered twice is reported once. *)
Theorem same_files_same_outputs (metadata : Metadata) (load : string -> option File)
    (files1 files2 : list string) (out : list string) :
  (forall x, x ∈ files1 <-> x ∈ files2) ->
  main_output_from metadata load files1 out <-> main_output_from metadata load files2 out.
Proof.
  intros Hset. unfold main_output_from.
  assert (HT : build_module_tree load files1 = build_module_tree load files2).
  { apply map_eq. intros q. rewrite !build_module_tree_lookup.
    by rewrite (bool_decide_ext _ _ (Hset q)). }
  by rewrite HT.
Qed.

Lemma same_files_same_outputs_witness :
  (forall x, x ∈ ["./src/lib.rs"; "./src/lib.rs"] <-> x ∈ ["./src/lib.rs"]) /\
  (main_output_from app_metadata app_load ["./src/lib.rs"; "./src/lib.rs"] [] <->
   main_output_from app_metadata app_load ["./src/lib.rs"] []).
Proof.
  assert (Hs : forall x, x ∈ ["./src/lib.rs"; "./src/lib.rs"] <-> x ∈ ["./src/lib.rs"])
    by (intros x; set_solver).
  split; [exact Hs|]. exact (same_files_same_outputs _ _ _ _ [] Hs).
Defined.

(* ------------------------------------------------------------------ *)
(** ** Further properties: nested-meta parsing and [has_cfg_test] *)

(** A comma-separated list of bare identifiers, with or without a
    trailing comma, hands every identifier to the callback, in order. *)
Theorem parse_nested_meta_idents (ids : list string) :
  parse_nested_meta (comma_idents ids) = map bare ids /\
  parse_nested_meta (comma_idents ids ++ [tok_comma]) = map bare ids.
Proof.
  unfold parse_nested_meta.
  induction ids as [|a ids IH]; [done|].
  destruct ids as [|b ids]; [done|].
  destruct IH as [IH1 IH2]. split.
  - change (comma_idents (a :: b :: ids)) with (TIdent a :: tok_comma :: comma_idents (b :: ids)).
    cbn [nested_paths]. by rewrite IH1.
  - change (comma_idents (a :: b :: ids) ++ [tok_comma])
      with (TIdent a :: tok_comma :: (comma_idents (b :: ids) ++ [tok_comma])).
    cbn [nested_paths]. by rewrite IH2.
Qed.

(** After an identifier followed by anything that is neither [::] nor
    [,] (arguments in parentheses, [= value], a literal, another
    identifier), parsing stops with an error that the code discards: only
    that first identifier is inspected.  So [#[reflect(X(..), Component)]]
    is a registration only if [X] is [Component]. *)
Theorem parse_nested_meta_stops_after_arguments (a : string) (t : token) (rest : list token) :
  match t with TPunct _ _ => False | _ => True end ->
  parse_nested_meta (TIdent a :: t :: rest) = [bare a] /\
  has_registration [attr_list "reflect" (TIdent a :: t :: rest)] = String.eqb a "Component".
Proof.
  intros Ht. destruct t; try done; split; try reflexivity;
    unfold has_registration, attr_carries; simpl; by rewrite ?orb_false_r, ?andb_true_r.
Qed.

Lemma parse_nested_meta_stops_after_arguments_witness :
  match TGroup "(" ")" [] with TPunct _ _ => False | _ => True end /\
  (parse_nested_meta (TIdent "Default" :: TGroup "(" ")" [] :: [tok_comma; tok_id "Component"])
     = [bare "Default"] /\
   has_registration [attr_list "reflect"
     (TIdent "Default" :: TGroup "(" ")" [] :: [tok_comma; tok_id "Component"])] =
   String.eqb "Default" "Component").
Proof.
  split; [exact I|]. apply parse_nested_meta_stops_after_arguments. exact I.
Defined.

Lemma prefix_app (pat y : string) : String.prefix pat (String.append pat y) = true.
Proof.
  induction pat as [|c pat IH]; [by destruct y|]. rewrite str_app_cons. simpl.
  destruct (ascii_dec c c); [done|congruence].
Qed.

Lemma contains_of_prefix (s pat : string) : String.prefix pat s = true -> contains s pat = true.
Proof. intros H. destruct s; cbn [contains]; by rewrite H. Qed.

Lemma contains_infix (x pat y : string) :
  contains (String.append x (String.append pat y)) pat = true.
Proof.
  induction x as [|c x IH].
  - change (String.append "" (String.append pat y)) with (String.append pat y).
    apply contains_of_prefix, prefix_app.
  - rewrite str_app_cons. simpl. by rewrite IH, orb_true_r.
Qed.

Lemma prefix_sound (pat s : string) :
  String.prefix pat s = true -> exists y, s = String.append pat y.
Proof.
  revert s. induction pat as [|c pat IH]; intros s H; [by exists s|].
  destruct s as [|c' s]; simpl in H; [done|].
  destruct (ascii_dec c c') as [->|]; [|done].
  destruct (IH s H) as [y ->]. by exists y.
Qed.

Lemma contains_sound (s pat : string) :
  contains s pat = true -> exists x y, s = String.append x (String.append pat y).
Proof.
  induction s as [|c s IH]; intros H.
  - cbn [contains] in H. rewrite orb_false_r in H. destruct (prefix_sound _ _ H) as [y ->].
    by exists "", y.
  - cbn [contains] in H. apply orb_true_iff in H as [H|H].
    + destruct (prefix_sound _ _ H) as [y Hy]. exists "", y. exact Hy.
    + destruct (IH H) as (x & y & ->). exists (String c x), y. done.
Qed.

Lemma infix_trans (a b c : string) : infix a b -> infix b c -> infix a c.
Proof.
  intros (x1 & y1 & ->) (x2 & y2 & ->).
  exists (String.append x2 x1), (String.append y1 y2). by rewrite !str_app_assoc.
Qed.

Lemma infix_tokens_cons (t : token) (ts : list token) :
  infix (token_to_string t) (tokens_to_string (t :: ts)) /\
  infix (tokens_to_string ts) (tokens_to_string (t :: ts)).
Proof.
  destruct ts as [|t' ts].
  - split; [exists "", ""|exists "", (token_to_string t)]; simpl.
    + change (String.append "" (String.append (token_to_string t) ""))
        with (String.append (token_to_string t) "").
      induction (token_to_string t) as [|c s IH]; [done|]. by rewrite str_app_cons, <- IH.
    + done.
  - split.
    + exists "", (String.append " " (tokens_to_string (t' :: ts))). done.
    + exists (String.append (token_to_string t) " "), "".
      change (tokens_to_string (t :: t' :: ts)) with
        (String.append (token_to_string t) (String.append " " (tokens_to_string (t' :: ts)))).
      rewrite !str_app_assoc. f_equal. f_equal.
      induction (tokens_to_string (t' :: ts)) as [|c s IH]; [done|].
      by rewrite str_app_cons, <- IH.
Qed.

Lemma token_to_string_group (o c : string) (ts : list token) :
  token_to_string (TGroup o c ts) = String.append o (String.append (tokens_to_string ts) c).
Proof.
  cbn [token_to_string]. f_equal.
Qed.

Lemma infix_of_ident (s : string) (t : token) :
  tok_has_ident s t = true -> infix s (token_to_string t).
Proof.
  induction t as [s'|ch j|s'|o c ts Hts] using token_nested_ind;
    cbn [tok_has_ident]; try done.
  - intros H. apply String.eqb_eq in H as ->. exists "", "".
    change (token_to_string (TIdent s)) with s.
    change (String.append "" (String.append s ""))  with (String.append s "").
    induction s as [|ch s IH]; [done|]. by rewrite str_app_cons, <- IH.
  - intros H. rewrite token_to_string_group.
    apply (infix_trans _ (tokens_to_string ts)); [|by exists o, c].
    induction Hts as [|t ts Ht _ IH]; simpl in H; [done|].
    apply orb_true_iff in H as [H|H].
    + eapply infix_trans; [apply Ht, H|apply infix_tokens_cons].
    + eapply infix_trans; [apply IH, H|apply infix_tokens_cons].
Qed.

Lemma infix_tokens (s : string) (ts : list token) :
  existsb (tok_has_ident s) ts = true -> infix s (tokens_to_string ts).
Proof.
  induction ts as [|t ts IH]; simpl; [done|]. intros H.
  apply orb_true_iff in H as [H|H].
  - eapply infix_trans; [apply infix_of_ident, H|apply infix_tokens_cons].
  - eapply infix_trans; [apply IH, H|apply infix_tokens_cons].
Qed.

(** The test guard is a substring test on the whole token text of a
    [cfg] list: any identifier containing [test], at any depth, sets it,
    so a module under [#[cfg(not(test))]] or [#[cfg(feature_testing)]]
    is skipped as well. *)
Theorem cfg_guard_any_test_ident (attrs : list Attribute) (toks : list token) (s : string) :
  contains s "test" = true ->
  existsb (tok_has_ident s) toks = true ->
  has_cfg_test (attrs ++ attr_list "cfg" toks :: []) = true.
Proof.
  intros Hs Ht. unfold has_cfg_test. rewrite existsb_app. apply orb_true_iff. right.
  simpl. rewrite orb_false_r.
  destruct (infix_tokens s toks Ht) as (x & y & Hxy). rewrite Hxy.
  destruct (contains_sound s "test" Hs) as (a & b & ->).
  replace (String.append x (String.append (String.append a (String.append "test" b)) y))
    with (String.append (String.append x a) (String.append "test" (String.append b y)))
    by (by rewrite !str_app_assoc).
  apply contains_infix.
Qed.

Lemma cfg_guard_any_test_ident_witness :
  contains "test" "test" = true /\
  existsb (tok_has_ident "test") [TIdent "not"; TGroup "(" ")" [TIdent "test"]] = true /\
  has_cfg_test ([] ++ attr_list "cfg" [TIdent "not"; TGroup "(" ")" [TIdent "test"]] :: []) = true.
Proof.
  split; [reflexivity|split; [reflexivity|]].
  apply (cfg_guard_any_test_ident [] [TIdent "not"; TGroup "(" ")" [TIdent "test"]] "test");
    reflexivity.
Defined.

(* ------------------------------------------------------------------ *)
(** ** Further properties: trimming of [".rs"] *)

Lemma str_app_nil_r (a : string) : String.append a "" = a.
Proof. induction a as [|c a IH]; [done|]. by rewrite str_app_cons, IH. Qed.

Lemma length_rs_suffix (k : nat) : String.length (rs_suffix k) = 3 * k.
Proof. induction k as [|k IH]; [done|]. simpl. rewrite length_str_app, IH. simpl. lia. Qed.

Lemma trim_end_rs_step (fuel : nat) (g : string) :
  trim_end_rs (S fuel) (String.append g ".rs") = trim_end_rs fuel g.
Proof.
  assert (Hlen : String.length (String.append g ".rs") = S (String.length g + 2))
    by (rewrite length_str_app; simpl; lia).
  assert (He : ends_with_rs (String.append g ".rs") = true).
  { unfold ends_with_rs. rewrite Hlen.
    replace (S (String.length g + 2) - 3) with (String.length g) by lia.
    assert (Hsuf : String.substring (String.length g) 3 (String.append g ".rs") = ".rs")
      by exact (substring_app_r g ".rs").
    rewrite Hsuf.
    apply andb_true_intro. split; [apply Nat.leb_le; lia|done]. }
  cbn [trim_end_rs]. rewrite He, Hlen.
  replace (S (String.length g + 2) - 3) with (String.length g) by lia.
  by rewrite substring_app_l.
Qed.

Lemma trim_end_rs_suffix (f : string) (k fuel : nat) :
  ends_with_rs f = false -> k <= fuel ->
  trim_end_rs fuel (String.append f (rs_suffix k)) = f.
Proof.
  intros Hf. revert fuel. induction k as [|k IH]; intros fuel Hk.
  - cbn [rs_suffix]. rewrite str_app_nil_r. by apply trim_end_rs_stop.
  - destruct fuel as [|fuel]; [lia|]. cbn [rs_suffix].
    rewrite <- str_app_assoc, trim_end_rs_step. apply IH. lia.
Qed.

(** [trim_end_matches(".rs")] removes every trailing [".rs"], not just
    one: below plain directories, a file named [f.rs.rs...] gives the
    module path [ds::f]. *)
Theorem module_path_trims_all_rs (ds : list string) (f : string) (k : nat) :
  Forall (fun d => ends_with_rs d = false /\ d <> "mod") ds ->
  ends_with_rs f = false -> f <> "mod" ->
  relative_path_to_module_path (map Normal ds ++ [Normal (String.append f (rs_suffix k))]) =
    String.concat "::" (ds ++ [f]).
Proof.
  intros Hds Hf Hfm. rewrite rel_path_app, plain_segments by done. simpl.
  unfold trim_end_matches_rs. rewrite trim_end_rs_suffix by
    (done || (rewrite length_str_app, length_rs_suffix; lia)).
  replace (String.eqb f "mod") with false by (symmetry; by apply String.eqb_neq).
  done.
Qed.

Lemma module_path_trims_all_rs_witness :
  relative_path_to_module_path
    (map Normal ["foo"] ++ [Normal (String.append "bar" (rs_suffix 2))]) =
    String.concat "::" (["foo"] ++ ["bar"]).
Proof.
  apply (module_path_trims_all_rs ["foo"] "bar" 2);
    [repeat constructor; discriminate | reflexivity | discriminate].
Defined.

(* ------------------------------------------------------------------ *)
(** ** Further properties: discovery and relative paths *)

Lemma path_join_prefix (dir child : string) :
  exists r, path_join dir child = String.append dir r.
Proof.
  unfold path_join. destruct (String.eqb dir "") eqn:He.
  - apply String.eqb_eq in He as ->. by exists child.
  - destruct (String.get (String.length dir - 1) dir) as [[[] [] [] [] [] [] [] []]|];
      cbv iota; rewrite ?He; eexists; reflexivity.
Qed.

Lemma walk_prefix (n : node) :
  forall dir p, In p (walk dir n) -> exists r, p = String.append dir r.
Proof.
  induction n as [| |cs Hcs] using node_nested_ind; intros dir p Hin; cbn [walk] in Hin.
  - destruct (should_include_dir dir); [|done]. destruct Hin as [<-|[]].
    exists "". by rewrite str_app_nil_r.
  - done.
  - destruct (should_include_dir dir); [|done].
    destruct Hin as [<-|Hin]; [exists ""; by rewrite str_app_nil_r|].
    apply in_concat in Hin as (l & Hl & Hp). apply in_map_iff in Hl as ([nm c] & Heq & Hc).
    subst l. rewrite List.Forall_forall in Hcs.
    destruct (Hcs _ Hc (path_join dir nm) p Hp) as [r ->].
    destruct (path_join_prefix dir nm) as [r' ->]. exists (String.append r' r).
    by rewrite str_app_assoc.
Qed.

(** Every path [collect_source_files] yields extends the directory it was
    started from. *)
Theorem collect_source_files_under_dir (dir : string) (t : node) (p : string) :
  In p (collect_source_files dir t) -> exists r, p = String.append dir r.
Proof.
  unfold collect_source_files. intros Hp. apply filter_In in Hp as [Hp _].
  exact (walk_prefix t dir p Hp).
Qed.

Lemma collect_source_files_under_dir_witness :
  In "./src/a.rs" (collect_source_files "./src" (NDir [("a.rs", NFile)])) /\
  exists r, "./src/a.rs" = String.append "./src" r.
Proof.
  assert (H : In "./src/a.rs" (collect_source_files "./src" (NDir [("a.rs", NFile)])))
    by (vm_compute; auto).
  split; [exact H|]. exact (collect_source_files_under_dir _ _ _ H).
Defined.

(** The filter is on the extension only: [WalkDir] also yields
    directories, so an included directory whose name ends in [.rs] is
    collected as a source file. *)
Theorem collect_source_files_keeps_rs_dirs (dir : string) (cs : list (string * node)) :
  should_include_dir dir = true -> extension dir = Some "rs" ->
  In dir (collect_source_files dir (NDir cs)).
Proof.
  intros Hi He. unfold collect_source_files. cbn [walk]. rewrite Hi.
  apply filter_In. split; [by left|]. by apply bool_decide_eq_true.
Qed.

Lemma collect_source_files_keeps_rs_dirs_witness :
  should_include_dir "./src/data.rs" = true /\ extension "./src/data.rs" = Some "rs" /\
  In "./src/data.rs" (collect_source_files "./src/data.rs" (NDir [("x.txt", NFile)])).
Proof.
  split; [reflexivity|split; [reflexivity|]].
  apply collect_source_files_keeps_rs_dirs; reflexivity.
Defined.

(** Packages whose name does not start with [bevy_] contribute no files. *)
Theorem collect_dependency_files_only_bevy (metadata : Metadata) (fs : string -> node) :
  collect_dependency_files metadata fs =
  collect_dependency_files
    (mkMetadata (List.filter (fun pkg => String.prefix "bevy_" (name pkg)) (packages metadata))) fs.
Proof.
  unfold collect_dependency_files. cbn [packages].
  induction (packages metadata) as [|pkg pkgs IH]; [done|].
  cbn [List.filter]. destruct (String.prefix "bevy_" (name pkg)) eqn:Hb.
  - cbn [map List.concat]. rewrite Hb. by rewrite IH.
  - cbn [map List.concat]. rewrite Hb. exact IH.
Qed.

Lemma parent_rooted (cs root : list component) :
  parent (RootDir :: cs) = Some root -> exists r, root = RootDir :: r.
Proof.
  intros H. destruct cs as [|c cs]; [done|]. unfold parent in H.
  change (last (RootDir :: c :: cs)) with (last (c :: cs)) in H.
  change (removelast (RootDir :: c :: cs)) with (RootDir :: removelast (c :: cs)) in H.
  exists (removelast (c :: cs)). destruct (last (c :: cs)) as [[]|]; congruence.
Qed.

Lemma crate_root_for_file_in_rel (pkgs : list Package) (cs : list component) :
  Forall (fun pkg => exists m, components (manifest_path pkg) = RootDir :: m) pkgs ->
  crate_root_for_file_in (CurDir :: cs) pkgs = None.
Proof.
  induction 1 as [|pkg pkgs [m Hm] _ IH]; [done|]. cbn [crate_root_for_file_in]. rewrite Hm.
  destruct (parent (RootDir :: m)) as [root|] eqn:Hp; [|done].
  destruct (parent_rooted m root Hp) as [r ->]. cbn [starts_with].
  rewrite bool_decide_false by discriminate. exact IH.
Qed.

Lemma resolve_dot_relative (metadata : Metadata) (r : string) :
  Forall (fun pkg => exists m, components (manifest_path pkg) = RootDir :: m) (packages metadata) ->
  resolve_module_path (String.append "./" r) metadata = None.
Proof.
  intros Habs. unfold resolve_module_path.
  change (components (String.append "./" r))
    with (CurDir :: normal_parts (split_slash r)).
  unfold crate_root_for_file. rewrite crate_root_for_file_in_rel by done.
  change (components "src") with [Normal "src"]. cbn [strip_prefix].
  by rewrite bool_decide_false by discriminate.
Qed.

(** When every manifest path is absolute, a path starting with ["./"]
    (as every file found under ["./src"] does) has no module path: no
    package root is a prefix of it and it does not start with ["src"]. *)
Theorem dot_relative_paths_unresolved (metadata : Metadata) (r : string) :
  Forall (fun pkg => exists m, components (manifest_path pkg) = RootDir :: m) (packages metadata) ->
  resolve_module_path (String.append "./" r) metadata = None.
Proof. apply resolve_dot_relative. Qed.

Lemma dot_relative_paths_unresolved_witness :
  Forall (fun pkg => exists m, components (manifest_path pkg) = RootDir :: m)
    (packages bevy_metadata) /\
  resolve_module_path (String.append "./" "src/lib.rs") bevy_metadata = None.
Proof.
  assert (H : Forall (fun pkg => exists m, components (manifest_path pkg) = RootDir :: m)
                (packages bevy_metadata)).
  { apply List.Forall_cons.
    { exists [Normal "home"; Normal "u"; Normal "app"; Normal "Cargo.toml"]. reflexivity. }
    apply List.Forall_cons; [|apply List.Forall_nil].
    exists [Normal "reg"; Normal "bevy_x"; Normal "Cargo.toml"]. reflexivity. }
  split; [exact H|]. exact (dot_relative_paths_unresolved bevy_metadata "src/lib.rs" H).
Defined.

(** Without any [bevy_] dependency (and with absolute manifest paths)
    every run prints nothing: only files under ["./src"] are discovered
    and none of them resolves to a module path. *)
Theorem no_bevy_deps_no_findings (metadata : Metadata) (fs : string -> node)
    (load : string -> option File) (out : list string) :
  Forall (fun pkg => String.prefix "bevy_" (name pkg) = false) (packages metadata) ->
  Forall (fun pkg => exists m, components (manifest_path pkg) = RootDir :: m) (packages metadata) ->
  main_output metadata fs load out -> out = [].
Proof.
  intros Hnb Habs (entries & Hperm & ->).
  assert (Hd : collect_dependency_files metadata fs = []).
  { unfold collect_dependency_files. revert Hnb. generalize (packages metadata) as pkgs.
    induction 1 as [|pkg pkgs Hp _ IH]; [done|]. cbn [map List.concat]. by rewrite Hp. }
  rewrite findings_flat_map.
  assert (Hall : forall e, In e entries -> contrib metadata e = []).
  { intros [p f] He.
    assert (Hm : (p, f) ∈ map_to_list (build_module_tree load (discover metadata fs))).
    { apply list_elem_of_In. eapply Permutation_in; [exact Hperm|exact He]. }
    apply elem_of_map_to_list in Hm. rewrite build_module_tree_lookup in Hm.
    case_bool_decide as Hp; [|done].
    unfold discover in Hp. rewrite Hd, app_nil_r in Hp.
    apply list_elem_of_In in Hp. unfold collect_source_files in Hp.
    apply filter_In in Hp as [Hp _].
    destruct (walk_prefix _ "./src" p Hp) as [r ->].
    unfold contrib. cbn [fst].
    change (String.append "./src" r) with (String.append "./" (String.append "src" r)).
    by rewrite resolve_dot_relative. }
  clear Hperm. induction entries as [|e es IH]; [done|]. cbn [flat_map].
  rewrite Hall by (by left). apply IH. intros e' He'. apply Hall. by right.
Qed.

Lemma no_bevy_deps_no_findings_witness :
  Forall (fun pkg => String.prefix "bevy_" (name pkg) = false) (packages app_metadata) /\
  Forall (fun pkg => exists m, components (manifest_path pkg) = RootDir :: m)
    (packages app_metadata) /\
  main_output app_metadata app_fs app_load [] /\ [] = @nil string.
Proof.
  assert (H1 : Forall (fun pkg => String.prefix "bevy_" (name pkg) = false)
                 (packages app_metadata)).
  { apply List.Forall_cons; [reflexivity|apply List.Forall_nil]. }
  assert (H2 : Forall (fun pkg => exists m, components (manifest_path pkg) = RootDir :: m)
                 (packages app_metadata)).
  { apply List.Forall_cons; [|apply List.Forall_nil].
    exists [Normal "home"; Normal "u"; Normal "app"; Normal "Cargo.toml"]. reflexivity. }
  assert (H3 : main_output app_metadata app_fs app_load []).
  { unfold main_output.
    assert (Hd : discover app_metadata app_fs = ["./src/lib.rs"]) by (vm_compute; reflexivity).
    rewrite Hd.
    apply (single_type_file_findings app_metadata app_load "./src/lib.rs" [derive_rc] "Foo" []);
      [reflexivity|].
    assert (Hr : resolve_module_path "./src/lib.rs" app_metadata = None)
      by (vm_compute; reflexivity).
    by rewrite Hr. }
  split; [exact H1|split; [exact H2|split; [exact H3|]]].
  exact (no_bevy_deps_no_findings app_metadata app_fs app_load [] H1 H2 H3).
Defined.

(* ------------------------------------------------------------------ *)
(** ** Further properties: the module tree, the findings loop, annotations *)

(** The module tree maps exactly the discovered paths that parsed, each
    to its own syntax tree. *)
Theorem build_module_tree_entries (load : string -> option File) (files : list string)
    (q : string) (f : File) :
  build_module_tree load files !! q = Some f <-> q ∈ files /\ load q = Some f.
Proof. rewrite build_module_tree_lookup. case_bool_decide; naive_solver. Qed.

(** The findings loop over the map entries composes: the findings of
    two runs of entries are concatenated. *)
Theorem findings_app (metadata : Metadata) (e1 e2 : list (string * File)) :
  findings metadata (e1 ++ e2) = findings metadata e1 ++ findings metadata e2.
Proof. rewrite !findings_flat_map. apply flat_map_app. Qed.

(** [collect_reflect_types] only appends: split the items of a file
    anywhere, and the findings are those of the first part followed by
    those of the second, after what the accumulator held. *)
Theorem collect_reflect_types_app (l1 l2 : list Item) (module_path : string)
    (acc : list string) (public_only parent_is_public : bool) :
  collect_reflect_types (mkFile (l1 ++ l2)) module_path acc public_only parent_is_public =
  acc ++ collect_reflect_types (mkFile l1) module_path [] public_only parent_is_public
      ++ collect_reflect_types (mkFile l2) module_path [] public_only parent_is_public.
Proof.
  unfold collect_reflect_types. cbn [items].
  rewrite collect_items_app, (collect_items_acc l2), (collect_items_acc l1 _ acc).
  by rewrite app_assoc.
Qed.

Lemma existsb_perm {A} (g : A -> bool) (l1 l2 : list A) :
  l1 ≡ₚ l2 -> existsb g l1 = existsb g l2.
Proof.
  induction 1; simpl; try congruence.
  by rewrite !orb_assoc, (orb_comm (g y)).
Qed.

(** The detection predicate does not depend on the order of the
    annotations. *)
Theorem derives_attribute_order_irrelevant (attrs1 attrs2 : list Attribute) :
  attrs1 ≡ₚ attrs2 ->
  derives_reflect_and_component_but_no_reflect_component attrs1 =
  derives_reflect_and_component_but_no_reflect_component attrs2.
Proof.
  intros Hp. unfold derives_reflect_and_component_but_no_reflect_component.
  rewrite !fold_scan_attr. cbn [derives_reflect derives_component has_reflect_component_attr].
  unfold declares_reflect, declares_component, has_registration, attr_carries.
  by rewrite !(existsb_perm _ _ _ Hp).
Qed.

Lemma derives_attribute_order_irrelevant_witness :
  [reflect_c; derive_rc] ≡ₚ [derive_rc; reflect_c] /\
  derives_reflect_and_component_but_no_reflect_component [reflect_c; derive_rc] =
  derives_reflect_and_component_but_no_reflect_component [derive_rc; reflect_c].
Proof.
  assert (H : [reflect_c; derive_rc] ≡ₚ [derive_rc; reflect_c]) by apply perm_swap.
  split; [exact H|]. exact (derives_attribute_order_irrelevant _ _ H).
Defined.

Lemma concat_sep_cons (sep a : string) (l : list string) :
  String.concat sep (a :: l) =
  String.append a (match l with [] => "" | _ => String.append sep (String.concat sep l) end).
Proof. destruct l; [by rewrite str_app_nil_r|done]. Qed.

(** For a file of a dependency crate the module path is taken relative to
    the manifest directory, not to its [src]: a file [root/src/...] of
    crate [n] gets a module path starting with [n::src]. *)
Theorem dependency_module_path_keeps_src (path : string) (metadata : Metadata)
    (n : string) (root rel : list component) :
  crate_root_for_file (components path) metadata = Some n ->
  crate_root_path n metadata = Some root ->
  components path = root ++ Normal "src" :: rel ->
  exists tail, resolve_module_path path metadata = Some (join2 n (String.append "src" tail)).
Proof.
  intros Hc Hr Hp. unfold resolve_module_path. rewrite Hc, Hr.
  replace (strip_prefix (components path) root) with (Some (Normal "src" :: rel))
    by (symmetry; by apply strip_prefix_Some).
  unfold relative_path_to_module_path. cbn [map List.filter].
  change (trim_end_matches_rs (component_str (Normal "src"))) with "src".
  change (negb (String.eqb "src" "mod")) with true. cbv iota.
  rewrite concat_sep_cons. eexists. reflexivity.
Qed.

Lemma dependency_module_path_keeps_src_witness :
  crate_root_for_file (components "/reg/bevy_x/src/lib.rs") bevy_metadata = Some "bevy_x" /\
  crate_root_path "bevy_x" bevy_metadata = Some [RootDir; Normal "reg"; Normal "bevy_x"] /\
  components "/reg/bevy_x/src/lib.rs" =
    [RootDir; Normal "reg"; Normal "bevy_x"] ++ Normal "src" :: [Normal "lib.rs"] /\
  exists tail, resolve_module_path "/reg/bevy_x/src/lib.rs" bevy_metadata =
    Some (join2 "bevy_x" (String.append "src" tail)).
Proof.
  assert (H1 : crate_root_for_file (components "/reg/bevy_x/src/lib.rs") bevy_metadata
                 = Some "bevy_x") by reflexivity.
  assert (H2 : crate_root_path "bevy_x" bevy_metadata
                 = Some [RootDir; Normal "reg"; Normal "bevy_x"]) by reflexivity.
  assert (H3 : components "/reg/bevy_x/src/lib.rs" =
                 [RootDir; Normal "reg"; Normal "bevy_x"] ++ Normal "src" :: [Normal "lib.rs"])
    by reflexivity.
  split; [exact H1|split; [exact H2|split; [exact H3|]]].
  exact (dependency_module_path_keeps_src _ _ _ _ _ H1 H2 H3).
Defined.

Lemma plain_rs_segments (dks : list (string * nat)) :
  Forall (fun dk => ends_with_rs dk.1 = false /\ dk.1 <> "mod") dks ->
  List.filter (fun s => negb (String.eqb s "mod"))
    (map (fun c => trim_end_matches_rs (component_str c))
       (map (fun dk => Normal (String.append dk.1 (rs_suffix dk.2))) dks)) = map fst dks.
Proof.
  induction 1 as [|[d k] dks [Hd Hm] _ IH]; [done|]. cbn [map List.filter fst snd component_str].
  cbn [fst] in Hd, Hm.
  assert (Ht : trim_end_matches_rs (String.append d (rs_suffix k)) = d).
  { unfold trim_end_matches_rs.
    apply trim_end_rs_suffix; [done|]. rewrite length_str_app, length_rs_suffix. lia. }
  rewrite !Ht.
  replace (String.eqb d "mod") with false by (symmetry; by apply String.eqb_neq).
  cbn [negb]. by rewrite IH.
Qed.

(** C5 (as the code does it).  Every component of the relative path is
    trimmed of all its trailing [".rs"] (any number of them, in every
    position, not only the last), every component that is then ["mod"] is
    dropped wherever it stands, and the rest is joined with ["::"].  So
    plain names followed by any number of [".rs"] give the plain names,
    [ds/mod.rs] gives [ds], [foo/bar.rs] gives [foo::bar], [foo/mod.rs]
    gives [foo] and [a.rs/b.rs] gives [a::b]. *)
Theorem module_path_from_segments (dks : list (string * nat)) (ds : list string) :
  Forall (fun dk => ends_with_rs dk.1 = false /\ dk.1 <> "mod") dks ->
  Forall (fun d => ends_with_rs d = false /\ d <> "mod") ds ->
  relative_path_to_module_path
    (map (fun dk => Normal (String.append dk.1 (rs_suffix dk.2))) dks) =
    String.concat "::" (map fst dks) /\
  relative_path_to_module_path (map Normal ds ++ [Normal "mod.rs"]) = String.concat "::" ds /\
  (forall (ps qs : list component) (c : component),
     trim_end_matches_rs (component_str c) = "mod" ->
     relative_path_to_module_path (ps ++ c :: qs) = relative_path_to_module_path (ps ++ qs)) /\
  relative_path_to_module_path (components "foo/bar.rs") = "foo::bar" /\
  relative_path_to_module_path (components "foo/mod.rs") = "foo" /\
  relative_path_to_module_path (components "a.rs/b.rs") = "a::b".
Proof.
  intros Hdks Hds. split; [|split; [|split; [|split; [|split]]]].
  - unfold relative_path_to_module_path. by rewrite plain_rs_segments.
  - rewrite rel_path_app, plain_segments by done. simpl. by rewrite app_nil_r.
  - intros ps qs c Hc.
    rewrite (rel_path_app ps (c :: qs)), (rel_path_app ps qs). simpl. by rewrite Hc.
  - reflexivity.
  - reflexivity.
  - reflexivity.
Qed.

Lemma module_path_from_segments_witness :
  Forall (fun dk => ends_with_rs dk.1 = false /\ dk.1 <> "mod") [("a", 1); ("b", 2)] /\
  Forall (fun d => ends_with_rs d = false /\ d <> "mod") ["foo"] /\
  relative_path_to_module_path
    (map (fun dk => Normal (String.append dk.1 (rs_suffix dk.2))) [("a", 1); ("b", 2)]) =
    String.concat "::" (map fst [("a", 1); ("b", 2)]).
Proof.
  assert (H1 : Forall (fun dk => ends_with_rs dk.1 = false /\ dk.1 <> "mod")
                 [("a", 1); ("b", 2)]).
  { apply List.Forall_cons; [split; [reflexivity|discriminate]|].
    apply List.Forall_cons; [split; [reflexivity|discriminate]|apply List.Forall_nil]. }
  assert (H2 : Forall (fun d => ends_with_rs d = false /\ d <> "mod") ["foo"]).
  { apply List.Forall_cons; [split; [reflexivity|discriminate]|apply List.Forall_nil]. }
  split; [exact H1|split; [exact H2|]].
  exact (proj1 (module_path_from_segments _ _ H1 H2)).
Defined.
